(** * Heart-disease prediction API (app.py): validation and inference pipeline

    A shallow embedding of [VALIDATION_RULES], [validate_data] and the
    [predict] endpoint of app.py, followed by the properties the
    specification states about them.

    Python values are modelled by [pyval] (what [request.json] can hold),
    exceptions by the error monad [result], the request log and the calls
    to the model by a trace of [event]s. *)

From Stdlib Require Import ZArith QArith.QArith_base Floats.SpecFloat DecimalString Ascii.
From stdpp Require Import gmap strings list fin_maps.

Local Open Scope string_scope.
Local Open Scope Z_scope.
Local Open Scope list_scope.
Set Warnings "-register-all".

(** ** Python values *)

(** The values [request.json] produces: [None], booleans, arbitrary-size
    integers, binary64 floats (the standard library's [spec_float]: zero,
    infinity, nan, or a finite [±m·2^e]), strings, lists and dicts. *)
Inductive pyval :=
  | PNone
  | PBool (b : bool)
  | PInt (n : Z)
  | PFloat (x : spec_float)
  | PStr (s : string)
  | PList (l : list pyval)
  | PDict (d : gmap string pyval).

(** ** Exceptions

    [BadRequest] is what evaluating [request.json] raises on a body it
    cannot read, [ModelError] whatever the model raises. *)

Inductive exn :=
  | ValueError
  | TypeError
  | OverflowError
  | KeyError
  | IndexError
  | BadRequest
  | ModelError (msg : string).

Inductive result (A : Type) :=
  | Ok (a : A)
  | Raise (e : exn).
Arguments Ok {A} a.
Arguments Raise {A} e.

#[global] Instance result_ret : MRet result := fun _ a => Ok a.
#[global] Instance result_bind : MBind result := fun _ _ f m =>
  match m with
  | Ok a => f a
  | Raise e => Raise e
  end.

(** ** String formatting: [str(n)] and [str([n1, ..., nk])] *)

Definition str_of_int (n : Z) : string := NilZero.string_of_int (Z.to_int n).

Fixpoint join (sep : string) (l : list string) : string :=
  match l with
  | [] => ""
  | [s] => s
  | s :: rest => s +:+ sep +:+ join sep rest
  end.

Definition str_of_list (l : list Z) : string :=
  "[" +:+ join ", " (str_of_int <$> l) +:+ "]".

(** ** [int(s)] on ASCII text

    CPython's [int(str)] restricted to ASCII text: the whitespace bytes
    9-13 and 32 are stripped at both ends, then come one optional sign and
    decimal digits, in which single underscores may separate digits; more
    than [max_str_digits] digits are refused (the interpreter's default
    limit). [None] stands for [ValueError]. A string holding any other
    byte is refused here; CPython also accepts the other Unicode decimal
    digits and whitespace, which this function does not model: it serves
    to run the pipeline on examples, and the properties below take the
    conversion as a parameter. *)

Definition is_space (a : ascii) : bool :=
  let n := nat_of_ascii a in
  ((9 <=? n)%nat && (n <=? 13)%nat) || (n =? 32)%nat.

Fixpoint lstrip (s : list ascii) : list ascii :=
  match s with
  | a :: rest => if is_space a then lstrip rest else s
  | [] => []
  end.

Definition strip (s : list ascii) : list ascii := rev (lstrip (rev (lstrip s))).

Definition digit_val (a : ascii) : option Z :=
  let n := nat_of_ascii a in
  if ((48 <=? n)%nat && (n <=? 57)%nat)%bool then Some (Z.of_nat (n - 48)) else None.

Fixpoint digits (acc : Z) (after_digit : bool) (s : list ascii) : option Z :=
  match s with
  | [] => if after_digit then Some acc else None
  | a :: rest =>
      if Ascii.eqb a "_"%char
      then (if after_digit then digits acc false rest else None)
      else match digit_val a with
           | Some d => digits (acc * 10 + d) true rest
           | None => None
           end
  end.

(** [sys.int_max_str_digits] *)
Definition max_str_digits : nat := 4300.

Definition count_digits (s : list ascii) : nat :=
  length (List.filter (fun a => match digit_val a with Some _ => true | None => false end) s).

(** The digits after the sign. *)
Definition unsigned_int (s : list ascii) : option Z :=
  match digits 0 false s with
  | Some n => if (count_digits s <=? max_str_digits)%nat then Some n else None
  | None => None
  end.

Definition ascii_int (s : string) : option Z :=
  match strip (String.list_ascii_of_string s) with
  | a :: rest =>
      if Ascii.eqb a "-"%char then Z.opp <$> unsigned_int rest
      else if Ascii.eqb a "+"%char then unsigned_int rest
      else unsigned_int (a :: rest)
  | [] => None
  end.

(** ** [int(x)] on a float

    [float.__int__] truncates toward zero; it raises [OverflowError] on an
    infinity and [ValueError] on a nan. [Z.shiftl] by a negative amount is
    a right shift, the floor of the positive magnitude. *)
Definition float_to_int (x : spec_float) : result Z :=
  match x with
  | S754_zero _ => Ok 0
  | S754_infinity _ => Raise OverflowError
  | S754_nan => Raise ValueError
  | S754_finite s m e =>
      let mag := Z.shiftl (Z.pos m) e in
      Ok (if s then - mag else mag)
  end.

(** The rational a float denotes, and truncation toward zero as the
    specification words it (the integer part, the fraction discarded). *)
Definition float_to_Q (x : spec_float) : Q :=
  match x with
  | S754_finite s m e =>
      let n := if s then Z.neg m else Z.pos m in
      match e with
      | Z.neg k => Qmake n (2 ^ k)%positive
      | _ => Qmake (n * 2 ^ e) 1
      end
  | _ => Qmake 0 1
  end.

Definition truncate (q : Q) : Z := Z.quot (Qnum q) (Z.pos (Qden q)).

Definition is_finite (x : spec_float) : bool :=
  match x with
  | S754_zero _ | S754_finite _ _ _ => true
  | _ => false
  end.

(** ** Membership and subscription on the request body

    [field in data] and [data[field]] for a string [field]: key lookup on
    a dict, element equality on a list, substring search on a string;
    the other values are not containers. *)

Fixpoint contains (sub s : string) : bool :=
  String.prefix sub s ||
  match s with
  | EmptyString => false
  | String _ rest => contains sub rest
  end.

Definition is_str (field : string) (v : pyval) : bool :=
  match v with
  | PStr s => String.eqb s field
  | _ => false
  end.

Definition py_in (field : string) (data : pyval) : result bool :=
  match data with
  | PDict d => Ok (match d !! field with Some _ => true | None => false end)
  | PList l => Ok (existsb (is_str field) l)
  | PStr s => Ok (contains field s)
  | PNone | PBool _ | PInt _ | PFloat _ => Raise TypeError
  end.

Definition py_getitem (data : pyval) (field : string) : result pyval :=
  match data with
  | PDict d => match d !! field with
               | Some v => Ok v
               | None => Raise KeyError
               end
  | _ => Raise TypeError
  end.

(** ** The rule table *)

(** [rules['type']] is the builtin [int] in every rule. *)
Inductive pytype := Tint.

Definition type_name (t : pytype) : string :=
  match t with Tint => "int" end.

(** A rule dict: the keys ['min'], ['max'] and ['allowed_values'] may be
    absent. *)
Record FieldRule := {
  r_type : pytype;
  r_min : option Z;
  r_max : option Z;
  r_allowed_values : option (list Z);
  r_required : bool
}.

Definition ranged (lo hi : Z) : FieldRule :=
  {| r_type := Tint; r_min := Some lo; r_max := Some hi;
     r_allowed_values := None; r_required := true |}.

Definition one_of (vals : list Z) : FieldRule :=
  {| r_type := Tint; r_min := None; r_max := None;
     r_allowed_values := Some vals; r_required := true |}.

(** A dict iterates in insertion order. *)
Definition VALIDATION_RULES : list (string * FieldRule) :=
  [ ("age", ranged 18 100);
    ("sex", one_of [0; 1]);
    ("cp", one_of [0; 1; 2; 3]);
    ("trestbps", ranged 90 200);
    ("chol", ranged 120 570);
    ("fbs", one_of [0; 1]);
    ("restecg", one_of [0; 1; 2]);
    ("thalach", ranged 60 220);
    ("exang", one_of [0; 1]);
    ("oldpeak", one_of [0; 1; 2; 3; 4; 5]);
    ("slope", one_of [0; 1; 2]);
    ("ca", one_of [0; 1; 2; 3]);
    ("thal", one_of [0; 1; 2; 3]) ].

Definition schema_fields : list string := fst <$> VALIDATION_RULES.

(** ** The pipeline *)

Section Pipeline.

(** [int(s)] on a string: CPython's decimal literal conversion, [None] for
    [ValueError]. [ascii_int] above is its ASCII fragment; what follows
    holds for any conversion (Unicode digits and digit-count limits
    included), so it is a parameter. *)
Variable str_to_int : string -> option Z.

(** [int(value)] *)
Definition py_int (value : pyval) : result Z :=
  match value with
  | PNone => Raise TypeError
  | PBool b => Ok (if b then 1 else 0)
  | PInt n => Ok n
  | PFloat x => float_to_int x
  | PStr s => match str_to_int s with
              | Some n => Ok n
              | None => Raise ValueError
              end
  | PList _ | PDict _ => Raise TypeError
  end.

(** [rules['type'](value)] *)
Definition type_call (t : pytype) (value : pyval) : result Z :=
  match t with Tint => py_int value end.

(** *** [validate_data] *)

Definition msg_missing (field : string) : string :=
  "Missing required field: " +:+ field.
Definition msg_type (field : string) (t : pytype) : string :=
  field +:+ " must be of type " +:+ type_name t.
Definition msg_min (field : string) (lo : Z) : string :=
  field +:+ " must be at least " +:+ str_of_int lo.
Definition msg_max (field : string) (hi : Z) : string :=
  field +:+ " must be no more than " +:+ str_of_int hi.
Definition msg_allowed (field : string) (vals : list Z) : string :=
  field +:+ " must be one of " +:+ str_of_list vals.

(** [value not in rules['allowed_values']] *)
Definition not_in_list (value : Z) (vals : list Z) : bool :=
  negb (existsb (Z.eqb value) vals).

(** The three checks on a coerced value; each [if] appends on its own. *)
Definition check_value (field : string) (rules : FieldRule) (value : Z)
    (errors : list string) : list string :=
  let errors :=
    match r_min rules with
    | Some lo => if (value <? lo)%Z then errors ++ [msg_min field lo] else errors
    | None => errors
    end in
  let errors :=
    match r_max rules with
    | Some hi => if (value >? hi)%Z then errors ++ [msg_max field hi] else errors
    | None => errors
    end in
  match r_allowed_values rules with
  | Some vals =>
      if not_in_list value vals then errors ++ [msg_allowed field vals] else errors
  | None => errors
  end.

(** One iteration of the loop: the body of [for field, rules in ...]. The
    [except] clause catches [ValueError] and [TypeError] only. *)
Definition check_field (data : pyval) (field : string) (rules : FieldRule)
    (errors : list string) : result (list string) :=
  present ← py_in field data;
  if negb present then
    mret (if r_required rules then errors ++ [msg_missing field] else errors)
  else
    value ← py_getitem data field;
    match type_call (r_type rules) value with
    | Raise ValueError | Raise TypeError =>
        mret (errors ++ [msg_type field (r_type rules)])
    | Raise e => Raise e
    | Ok value => mret (check_value field rules value errors)
    end.

Fixpoint validate_loop (items : list (string * FieldRule)) (data : pyval)
    (errors : list string) : result (list string) :=
  match items with
  | [] => mret errors
  | (field, rules) :: rest =>
      errors ← check_field data field rules errors;
      validate_loop rest data errors
  end.

Definition validate_data (data : pyval) : result (list string) :=
  validate_loop VALIDATION_RULES data [].

(** *** [predict] *)

(** The model loaded from hdp_model.pkl: [predict] returns one label per
    input row, [predict_proba] one row of class probabilities per input
    row; either call may raise. *)
Record Model := {
  model_predict : list (list Z) -> result (list Z);
  model_predict_proba : list (list Z) -> result (list (list spec_float))
}.

Inductive event :=
  | LogInfo (data : pyval)
  | LogError (e : exn)
  | CallPredict (values : list (list Z))
  | CallPredictProba (values : list (list Z)).

Definition is_model_call (ev : event) : bool :=
  match ev with
  | CallPredict _ | CallPredictProba _ => true
  | _ => false
  end.

Record response := { body : pyval; status : Z }.

(** A computation of the request handler: the events so far and a value
    or the exception that stopped it. *)
Definition handler (A : Type) : Type := list event * result A.

#[local] Instance handler_ret : MRet handler := fun _ a => ([], Ok a).
#[local] Instance handler_bind : MBind handler := fun _ _ f m =>
  match m with
  | (tr, Ok a) => let '(tr', r) := f a in (tr ++ tr', r)
  | (tr, Raise e) => (tr, Raise e)
  end.

Definition emit (ev : event) : handler unit := ([ev], Ok tt).
Definition lift {A} (r : result A) : handler A := ([], r).

(** [l[i]] on a sequence *)
Definition index {A} (l : list A) (i : nat) : result A :=
  match l !! i with
  | Some a => Ok a
  | None => Raise IndexError
  end.

(** [int(data[field])] *)
Definition int_item (data : pyval) (field : string) : result Z :=
  value ← py_getitem data field;
  py_int value.

(** The row of [np.array([[int(data['age']), ..., int(data['thal'])]])],
    evaluated left to right. *)
Definition assemble (data : pyval) : result (list Z) :=
  age ← int_item data "age";
  sex ← int_item data "sex";
  cp ← int_item data "cp";
  trestbps ← int_item data "trestbps";
  chol ← int_item data "chol";
  fbs ← int_item data "fbs";
  restecg ← int_item data "restecg";
  thalach ← int_item data "thalach";
  exang ← int_item data "exang";
  oldpeak ← int_item data "oldpeak";
  slope ← int_item data "slope";
  ca ← int_item data "ca";
  thal ← int_item data "thal";
  mret [age; sex; cp; trestbps; chol; fbs; restecg; thalach; exang;
        oldpeak; slope; ca; thal].

Definition errors_body (errors : list string) : pyval :=
  PDict {[ "success" := PBool false; "errors" := PList (PStr <$> errors) ]}.

Definition success_body (prediction : Z) (negative positive : spec_float)
    (timestamp : string) : pyval :=
  PDict {[ "success" := PBool true;
           "prediction" := PInt prediction;
           "probability" := PDict {[ "negative" := PFloat negative;
                                     "positive" := PFloat positive ]};
           "timestamp" := PStr timestamp ]}.

Definition internal_error_body : pyval :=
  PDict {[ "success" := PBool false; "error" := PStr "Internal server error" ]}.

(** The [try] block. [request_json] is what evaluating [request.json]
    gives, [now] is [datetime.now().isoformat()]. *)
Definition predict_try (model : Model) (request_json : result pyval)
    (now : string) : handler response :=
  data ← lift request_json;
  _ ← emit (LogInfo data);
  errors ← lift (validate_data data);
  match errors with
  | _ :: _ => mret {| body := errors_body errors; status := 400 |}
  | [] =>
      row ← lift (assemble data);
      let values := [row] in
      _ ← emit (CallPredict values);
      prediction ← lift (model_predict model values);
      _ ← emit (CallPredictProba values);
      proba ← lift (model_predict_proba model values);
      prediction_proba ← lift (index proba 0);
      label ← lift (index prediction 0);
      negative ← lift (index prediction_proba 0);
      positive ← lift (index prediction_proba 1);
      mret {| body := success_body label negative positive now; status := 200 |}
  end.

(** The endpoint: the response and the trace of events. *)
Definition predict (model : Model) (request_json : result pyval)
    (now : string) : response * list event :=
  match predict_try model request_json now with
  | (tr, Ok resp) => (resp, tr)
  | (tr, Raise e) =>
      ({| body := internal_error_body; status := 500 |}, tr ++ [LogError e])
  end.

(** *** [validate_data] over a store

    The same function, statement by statement, over the objects a call
    can reach: the global rule table, the record it is given, and the
    list bound to its local [errors]. Reads leave the store as it is,
    [errors.append] changes the list in place. *)

Record store := {
  st_rules : list (string * FieldRule);
  st_data : pyval;
  st_errors : list string
}.

Definition stateful (A : Type) : Type := store -> result A * store.

#[local] Instance stateful_ret : MRet stateful := fun _ a st => (Ok a, st).
#[local] Instance stateful_bind : MBind stateful := fun _ _ f m st =>
  match m st with
  | (Ok a, st') => f a st'
  | (Raise e, st') => (Raise e, st')
  end.

Definition raise {A} (e : exn) : stateful A := fun st => (Raise e, st).
Definition pass : stateful unit := mret tt.

(** [errors = []] *)
Definition new_errors : stateful unit := fun st =>
  (Ok tt, {| st_rules := st_rules st; st_data := st_data st; st_errors := [] |}).

(** [errors.append(msg)] *)
Definition append_error (msg : string) : stateful unit := fun st =>
  (Ok tt, {| st_rules := st_rules st; st_data := st_data st;
             st_errors := st_errors st ++ [msg] |}).

Definition read_errors : stateful (list string) := fun st => (Ok (st_errors st), st).
Definition read_rules : stateful (list (string * FieldRule)) := fun st =>
  (Ok (st_rules st), st).
Definition data_contains (field : string) : stateful bool := fun st =>
  (py_in field (st_data st), st).
Definition data_item (field : string) : stateful pyval := fun st =>
  (py_getitem (st_data st) field, st).

Definition check_field_st (field : string) (rules : FieldRule) : stateful unit :=
  present ← data_contains field;
  if negb present then
    (if r_required rules then append_error (msg_missing field) else pass)
  else
    value ← data_item field;
    match type_call (r_type rules) value with
    | Raise ValueError | Raise TypeError =>
        append_error (msg_type field (r_type rules))
    | Raise e => raise e
    | Ok value =>
        _ ← match r_min rules with
            | Some lo => if (value <? lo)%Z then append_error (msg_min field lo) else pass
            | None => pass
            end;
        _ ← match r_max rules with
            | Some hi => if (value >? hi)%Z then append_error (msg_max field hi) else pass
            | None => pass
            end;
        match r_allowed_values rules with
        | Some vals =>
            if not_in_list value vals then append_error (msg_allowed field vals) else pass
        | None => pass
        end
    end.

Fixpoint validate_loop_st (items : list (string * FieldRule)) : stateful unit :=
  match items with
  | [] => pass
  | (field, rules) :: rest =>
      _ ← check_field_st field rules;
      validate_loop_st rest
  end.

Definition validate_data_st : stateful (list string) :=
  _ ← new_errors;
  items ← read_rules;
  _ ← validate_loop_st items;
  read_errors.

(** *** Reading the error messages *)

(** The messages that name [field]. *)
Definition is_about (field : string) (e : string) : bool :=
  String.eqb e (msg_missing field) || String.prefix (field +:+ " must be ") e.


(** Every message one iteration for [field] can append. *)
Definition possible_msgs (field : string) (rules : FieldRule) : list string :=
  [msg_missing field; msg_type field (r_type rules)]
  ++ from_option (fun lo => [msg_min field lo]) [] (r_min rules)
  ++ from_option (fun hi => [msg_max field hi]) [] (r_max rules)
  ++ from_option (fun vals => [msg_allowed field vals]) [] (r_allowed_values rules).

(** No message of another field of the table satisfies [P]. *)
Definition foreign_free (P : string -> bool) (field : string)
    (items : list (string * FieldRule)) : bool :=
  forallb (fun '(g, r) =>
             String.eqb g field || forallb (fun e => negb (P e)) (possible_msgs g r))
          items.

(** A coerced value is within a rule: inclusive bounds, membership in
    the allowed set. *)
Definition within (rules : FieldRule) (value : Z) : bool :=
  from_option (fun lo => lo <=? value) true (r_min rules)
  && from_option (fun hi => value <=? hi) true (r_max rules)
  && from_option (fun vals => existsb (Z.eqb value) vals) true (r_allowed_values rules).

(** The field of a table entry is present, coercible and within its rule. *)
Definition field_valid (d : gmap string pyval) (item : string * FieldRule) : bool :=
  match d !! item.1 with
  | Some value =>
      match py_int value with
      | Ok n => within item.2 n
      | Raise _ => false
      end
  | None => false
  end.

(** A record in which every field of the table is valid. *)
Definition valid_record (d : gmap string pyval) : bool :=
  forallb (field_valid d) VALIDATION_RULES.

(** The value stored under [field] is an infinite float. *)
Definition is_infinity_at (d : gmap string pyval) (field : string) : bool :=
  match d !! field with
  | Some (PFloat (S754_infinity _)) => true
  | _ => false
  end.

Definition has_infinity (d : gmap string pyval) : bool :=
  existsb (is_infinity_at d) schema_fields.

(** *** Records used as examples *)

Definition scenario1 : gmap string pyval :=
  {[ "age" := PInt 55; "sex" := PInt 1; "cp" := PInt 2; "trestbps" := PInt 130;
     "chol" := PInt 250; "fbs" := PInt 0; "restecg" := PInt 1;
     "thalach" := PInt 150; "exang" := PInt 0; "oldpeak" := PInt 1;
     "slope" := PInt 1; "ca" := PInt 0; "thal" := PInt 2 ]}.

(** 2.5 and 0.25, 0.75 as binary64 values *)
Definition two_and_a_half : spec_float := S754_finite false 5 (-1).
Definition quarter : spec_float := S754_finite false 1 (-2).
Definition three_quarters : spec_float := S754_finite false 3 (-2).

(** Scenario 2: [age] missing, [sex = 5]. *)
Definition scenario2 : gmap string pyval :=
  <["sex" := PInt 5]> (delete "age" scenario1).

(** Scenario 3: [trestbps = 300]. *)
Definition scenario3 : gmap string pyval := <["trestbps" := PInt 300]> scenario1.

(** [age] missing and [sex] a word. *)
Definition record_untyped : gmap string pyval :=
  <["sex" := PStr "male"]> (delete "age" scenario1).

(** [oldpeak = 2.5] *)
Definition record_fractional : gmap string pyval :=
  <["oldpeak" := PFloat two_and_a_half]> scenario1.

(** [age = inf], what the JSON number [1e999] is read as. *)
Definition record_infinite : gmap string pyval :=
  <["age" := PFloat (S754_infinity false)]> scenario1.

(** Scenario 2 with [cp = inf] and [trestbps = 300]. *)
Definition scenario2_infinite : gmap string pyval :=
  <["trestbps" := PInt 300]> (<["cp" := PFloat (S754_infinity false)]> scenario2).

(** A model that answers class 0 with probabilities (0.75, 0.25). *)
Definition constant_model : Model :=
  {| model_predict := fun _ => Ok [0];
     model_predict_proba := fun _ => Ok [[three_quarters; quarter]] |}.

(** *** Request bodies that are not dicts *)

(** Some element of a list body is the name of a field of the table. *)
Definition list_names_field (l : list pyval) : bool :=
  existsb (fun field => existsb (is_str field) l) schema_fields.

(** A string body has the name of a field of the table as a substring. *)
Definition str_names_field (s : string) : bool :=
  existsb (fun field => contains field s) schema_fields.

(** The calls to the model recorded in a trace. *)
Definition model_calls (tr : list event) : list event :=
  List.filter is_model_call tr.

(** Scenario 1 sent with [age] as the string "55", [sex] as [true] and a
    key the table does not list. *)
Definition record_coerced : gmap string pyval :=
  <["note" := PStr "follow-up"]>
    (<["sex" := PBool true]> (<["age" := PStr "55"]> scenario1)).

(** A model whose [predict] raises. *)
Definition failing_model : Model :=
  {| model_predict := fun _ => Raise (ModelError "shape mismatch");
     model_predict_proba := fun _ => Ok [[three_quarters; quarter]] |}.

(** A model whose probability row has one entry. *)
Definition short_model : Model :=
  {| model_predict := fun _ => Ok [0];
     model_predict_proba := fun _ => Ok [[three_quarters]] |}.

(** A model that, on every input, returns at least one label and a first
    probability row of at least two entries. *)
Definition well_shaped (model : Model) : Prop :=
  forall values,
    (exists label rest, model_predict model values = Ok (label :: rest)) /\
    (exists negative positive ps rows,
       model_predict_proba model values = Ok ((negative :: positive :: ps) :: rows)).

Definition internal_error : response :=
  {| body := internal_error_body; status := 500 |}.

(** The ways a request can end: the response and the trace of each. *)
Inductive outcome (model : Model) (now : string) :
    result pyval -> response -> list event -> Prop :=
  | unreadable e :
      outcome model now (Raise e) internal_error [LogError e]
  | validation_raised data e :
      validate_data data = Raise e ->
      outcome model now (Ok data) internal_error [LogInfo data; LogError e]
  | rejected data errs :
      validate_data data = Ok errs -> errs <> [] ->
      outcome model now (Ok data)
        {| body := errors_body errs; status := 400 |} [LogInfo data]
  | predict_raised data row e :
      validate_data data = Ok [] -> assemble data = Ok row ->
      model_predict model [row] = Raise e ->
      outcome model now (Ok data) internal_error
        [LogInfo data; CallPredict [row]; LogError e]
  | predict_proba_raised data row prediction e :
      validate_data data = Ok [] -> assemble data = Ok row ->
      model_predict model [row] = Ok prediction ->
      model_predict_proba model [row] = Raise e ->
      outcome model now (Ok data) internal_error
        [LogInfo data; CallPredict [row]; CallPredictProba [row]; LogError e]
  | output_too_short data row prediction proba :
      validate_data data = Ok [] -> assemble data = Ok row ->
      model_predict model [row] = Ok prediction ->
      model_predict_proba model [row] = Ok proba ->
      (prediction = [] \/ proba = [] \/
       exists probs rows, proba = probs :: rows /\ (length probs < 2)%nat) ->
      outcome model now (Ok data) internal_error
        [LogInfo data; CallPredict [row]; CallPredictProba [row]; LogError IndexError]
  | answered data row label rest negative positive ps rows :
      validate_data data = Ok [] -> assemble data = Ok row ->
      model_predict model [row] = Ok (label :: rest) ->
      model_predict_proba model [row] = Ok ((negative :: positive :: ps) :: rows) ->
      outcome model now (Ok data)
        {| body := success_body label negative positive now; status := 200 |}
        [LogInfo data; CallPredict [row]; CallPredictProba [row]].

(** ** Properties *)

(** *** The error monad *)

Lemma bind_Ok {A B} (f : A -> result B) (a : A) : (Ok a ≫= f) = f a.
Proof. reflexivity. Qed.

Lemma bind_Raise {A B} (f : A -> result B) (e : exn) : (Raise e ≫= f) = Raise e.
Proof. reflexivity. Qed.

Lemma bind_Ok_inv {A B} (f : A -> result B) (m : result A) (b : B) :
  (m ≫= f) = Ok b -> exists a, m = Ok a /\ f a = Ok b.
Proof. destruct m as [a|e]; [eauto | discriminate]. Qed.

(** *** One iteration appends to the list it is given *)

Lemma check_value_app field rules value errors :
  check_value field rules value errors = errors ++ check_value field rules value [].
Proof.
  unfold check_value.
  destruct (r_min rules) as [lo|], (r_max rules) as [hi|],
    (r_allowed_values rules) as [vals|];
    repeat match goal with |- context [if ?c then _ else _] => destruct c end;
    cbn [app]; rewrite ?app_nil_r, <- ?app_assoc; reflexivity.
Qed.

Lemma check_field_app data field rules errors :
  check_field data field rules errors =
  (check_field data field rules [] ≫= fun es => mret (errors ++ es)).
Proof.
  unfold check_field.
  destruct (py_in field data) as [present|e]; [|reflexivity].
  rewrite !bind_Ok. destruct present; cbn [negb].
  - destruct (py_getitem data field) as [value|e]; [|reflexivity].
    rewrite !bind_Ok.
    destruct (type_call (r_type rules) value) as [n|[]]; try reflexivity.
    cbn. f_equal. apply check_value_app.
  - destruct (r_required rules); cbn; rewrite ?app_nil_r; reflexivity.
Qed.

Lemma validate_loop_app items data errors :
  validate_loop items data errors =
  (validate_loop items data [] ≫= fun es => mret (errors ++ es)).
Proof.
  revert errors. induction items as [|[field rules] rest IH]; intros errors.
  - cbn. rewrite app_nil_r. reflexivity.
  - cbn [validate_loop]. rewrite check_field_app.
    destruct (check_field data field rules []) as [es|e]; [|reflexivity].
    rewrite !bind_Ok. cbn [mret result_ret app].
    rewrite (IH (errors ++ es)), (IH es).
    destruct (validate_loop rest data []) as [es'|e]; [|reflexivity].
    cbn. rewrite app_assoc. reflexivity.
Qed.

(** The loop returns the per-field lists, concatenated in table order. *)
Lemma validate_loop_cons field rules rest data errs :
  validate_loop ((field, rules) :: rest) data [] = Ok errs <->
  exists es errs', check_field data field rules [] = Ok es /\
                   validate_loop rest data [] = Ok errs' /\ errs = es ++ errs'.
Proof.
  cbn [validate_loop]. split.
  - intros H. apply bind_Ok_inv in H as (es & Hes & H).
    rewrite validate_loop_app in H. apply bind_Ok_inv in H as (errs' & He & H).
    cbn in H. injection H as <-. eauto.
  - intros (es & errs' & Hes & He & ->). rewrite Hes, bind_Ok.
    rewrite validate_loop_app, He. reflexivity.
Qed.

(** *** One iteration on a dict *)

Lemma check_field_absent (d : gmap string pyval) field rules :
  d !! field = None ->
  check_field (PDict d) field rules [] =
  Ok (if r_required rules then [msg_missing field] else []).
Proof. intros H. unfold check_field. cbn. rewrite H. reflexivity. Qed.

Lemma check_field_present (d : gmap string pyval) field rules value :
  d !! field = Some value ->
  check_field (PDict d) field rules [] =
  match type_call (r_type rules) value with
  | Raise ValueError | Raise TypeError => Ok [msg_type field (r_type rules)]
  | Raise e => Raise e
  | Ok n => Ok (check_value field rules n [])
  end.
Proof. intros H. unfold check_field. cbn. rewrite H. reflexivity. Qed.

Lemma type_call_int rules value :
  type_call (r_type rules) value = py_int value.
Proof. destruct (r_type rules). reflexivity. Qed.

(** *** Which messages an iteration can append *)

Lemma check_value_possible field rules value :
  Forall (fun e => In e (possible_msgs field rules)) (check_value field rules value []).
Proof.
  unfold check_value, possible_msgs.
  destruct (r_min rules) as [lo|], (r_max rules) as [hi|],
    (r_allowed_values rules) as [vals|];
    repeat match goal with |- context [if ?c then _ else _] => destruct c end;
    cbn [app from_option];
    repeat (apply List.Forall_cons; [cbn [In]; tauto|]); apply List.Forall_nil.
Qed.

Lemma check_field_possible data field rules es :
  check_field data field rules [] = Ok es ->
  Forall (fun e => In e (possible_msgs field rules)) es.
Proof.
  unfold check_field.
  destruct (py_in field data) as [present|e]; [|discriminate].
  rewrite bind_Ok. destruct present; cbn [negb].
  - destruct (py_getitem data field) as [value|e]; [|discriminate].
    rewrite bind_Ok.
    destruct (type_call (r_type rules) value) as [n|[]]; try discriminate;
      intros [= <-].
    + apply check_value_possible.
    + apply List.Forall_cons; [cbn [In possible_msgs app]; tauto | apply List.Forall_nil].
    + apply List.Forall_cons; [cbn [In possible_msgs app]; tauto | apply List.Forall_nil].
  - intros [= <-]. destruct (r_required rules); [|apply List.Forall_nil].
    apply List.Forall_cons; [cbn [In possible_msgs app]; tauto | apply List.Forall_nil].
Qed.

Lemma filter_none {A} (P : A -> bool) (l pool : list A) :
  Forall (fun e => In e pool) l ->
  forallb (fun e => negb (P e)) pool = true ->
  List.filter P l = [].
Proof.
  intros Hl Hpool. rewrite forallb_forall in Hpool.
  induction Hl as [|e l He _ IH]; [reflexivity|].
  cbn. specialize (Hpool e He). destruct (P e); [discriminate | exact IH].
Qed.

Lemma foreign_free_cons P field g r items :
  foreign_free P field ((g, r) :: items) = true ->
  (g = field \/ forallb (fun e => negb (P e)) (possible_msgs g r) = true) /\
  foreign_free P field items = true.
Proof.
  unfold foreign_free. cbn [forallb]. intros H.
  apply andb_prop in H as [H1 H2]. split; [|exact H2].
  apply orb_prop in H1 as [H1|H1]; [left | right; exact H1].
  apply String.eqb_eq. exact H1.
Qed.

(** A field that the table does not list contributes nothing. *)
Lemma validate_loop_filter_absent P field items data errs :
  ~ In field (fst <$> items) ->
  foreign_free P field items = true ->
  validate_loop items data [] = Ok errs ->
  List.filter P errs = [].
Proof.
  revert errs. induction items as [|[g r] rest IH]; intros errs Hnot Hfree Hrun.
  - cbn in Hrun. injection Hrun as <-. reflexivity.
  - apply validate_loop_cons in Hrun as (es & errs' & Hes & Hrest & ->).
    apply foreign_free_cons in Hfree as [[->|Hg] Hfree].
    + exfalso. apply Hnot. cbn. tauto.
    + rewrite List.filter_app.
      rewrite (filter_none P es _ (check_field_possible _ _ _ _ Hes) Hg).
      apply IH; [|assumption..]. intros Hin. apply Hnot. cbn. tauto.
Qed.

(** The messages selected by [P] are those of the field's own iteration. *)
Lemma validate_loop_filter_own P field rules items data errs :
  In (field, rules) items ->
  NoDup (fst <$> items) ->
  foreign_free P field items = true ->
  validate_loop items data [] = Ok errs ->
  exists es, check_field data field rules [] = Ok es /\
             List.filter P errs = List.filter P es.
Proof.
  revert errs. induction items as [|[g r] rest IH];
    intros errs Hin Hnd Hfree Hrun; [destruct Hin|].
  apply validate_loop_cons in Hrun as (es & errs' & Hes & Hrest & ->).
  cbn in Hnd. apply NoDup_cons in Hnd as [Hg Hnd].
  apply foreign_free_cons in Hfree as [Hhead Hfree].
  rewrite List.filter_app.
  destruct Hin as [[= -> ->]|Hin].
  - exists es. split; [exact Hes|].
    rewrite (validate_loop_filter_absent P field rest data errs'); try assumption.
    + apply app_nil_r.
    + intros H. apply Hg. apply list_elem_of_In. exact H.
  - destruct Hhead as [->|Hhead].
    + exfalso. apply Hg. apply list_elem_of_In.
      change field with (fst (field, rules)). apply in_map. exact Hin.
    + rewrite (filter_none P es _ (check_field_possible _ _ _ _ Hes) Hhead).
      apply IH; assumption.
Qed.

Lemma schema_fields_NoDup : NoDup (fst <$> VALIDATION_RULES).
Proof. apply (bool_decide_unpack _). vm_compute. reflexivity. Qed.

Lemma prefix_app (a p q : string) :
  String.prefix (a +:+ p) (a +:+ q) = String.prefix p q.
Proof.
  induction a as [|c a IH]; [reflexivity|].
  change (String.prefix (String c (a +:+ p)) (String c (a +:+ q)) = String.prefix p q).
  cbn [String.prefix].
  destruct (Ascii.ascii_dec c c) as [_|Hc]; [exact IH | contradiction].
Qed.



Lemma is_about_missing field : is_about field (msg_missing field) = true.
Proof. unfold is_about. rewrite String.eqb_refl. reflexivity. Qed.

Lemma is_about_type field t : is_about field (msg_type field t) = true.
Proof.
  unfold is_about, msg_type. rewrite prefix_app. destruct t.
  apply orb_true_r.
Qed.

Lemma schema_foreign_about field rules :
  In (field, rules) VALIDATION_RULES ->
  foreign_free (is_about field) field VALIDATION_RULES = true.
Proof.
  intros H. cbn in H.
  repeat (destruct H as [[= <- <-]|H]; [vm_compute; reflexivity|]).
  destruct H.
Qed.


(** *** Valid records *)

Lemma check_value_within field rules n :
  within rules n = true -> check_value field rules n [] = [].
Proof.
  unfold within, check_value, not_in_list. intros H.
  apply andb_prop in H as [H Hin]. apply andb_prop in H as [Hlo Hhi].
  destruct (r_min rules) as [lo|], (r_max rules) as [hi|],
    (r_allowed_values rules) as [vals|]; cbn [from_option] in *;
    rewrite ?Z.ltb_antisym, ?Z.gtb_ltb, ?Z.ltb_antisym, ?Hlo, ?Hhi, ?Hin;
    reflexivity.
Qed.

Lemma validate_loop_valid (d : gmap string pyval) items :
  forallb (field_valid d) items = true ->
  validate_loop items (PDict d) [] = Ok [].
Proof.
  induction items as [|[field rules] rest IH]; intros H; [reflexivity|].
  cbn [forallb] in H. apply andb_prop in H as [Hitem Hrest].
  apply validate_loop_cons. exists [], []. split; [|split; [|reflexivity]].
  - unfold field_valid in Hitem. cbn [fst snd] in Hitem.
    destruct (d !! field) as [value|] eqn:Hv; [|discriminate].
    rewrite (check_field_present d field rules value Hv), type_call_int.
    destruct (py_int value) as [n|e]; [|discriminate].
    f_equal. apply check_value_within. exact Hitem.
  - apply IH. exact Hrest.
Qed.

(** C1. A record holding all 13 fields of the table, each coercible to an
    integer that lies within the field's inclusive range or allowed set,
    makes [validate_data] return the empty list. *)
Theorem validate_data_valid_record (d : gmap string pyval) :
  valid_record d = true -> validate_data (PDict d) = Ok [].
Proof. intros H. apply validate_loop_valid. exact H. Qed.

(** *** Validation failures end the request *)

(** C2. When [validate_data] returns a non-empty list, the endpoint answers
    with the body [{"success": false, "errors": errors}] and status 400,
    and the trace holds no call to the model: neither [predict] nor
    [predict_proba] ran. *)
Theorem predict_rejects_invalid model data now errors :
  validate_data data = Ok errors ->
  errors <> [] ->
  predict model (Ok data) now =
    ({| body := PDict {[ "success" := PBool false;
                         "errors" := PList (PStr <$> errors) ]};
        status := 400 |},
     [LogInfo data]) /\
  List.filter is_model_call (snd (predict model (Ok data) now)) = [].
Proof.
  intros Hv Hne.
  assert (Hp : predict model (Ok data) now =
               ({| body := errors_body errors; status := 400 |}, [LogInfo data])).
  { unfold predict, predict_try. cbn -[validate_data]. rewrite Hv. cbn.
    destruct errors as [|e rest]; [contradiction|]. reflexivity. }
  rewrite Hp. split; reflexivity.
Qed.

(** *** Short-circuit within a field *)

(** Where a list is returned, the messages naming a field stop at the
    first failure: a missing message alone, or a type message alone. *)
Lemma field_short_circuit (d : gmap string pyval) field rules errs :
  In (field, rules) VALIDATION_RULES ->
  validate_data (PDict d) = Ok errs ->
  (r_required rules = true -> d !! field = None ->
   List.filter (is_about field) errs = ["Missing required field: " +:+ field]) /\
  (forall value e, d !! field = Some value -> py_int value = Raise e ->
   List.filter (is_about field) errs = [field +:+ " must be of type int"]).
Proof.
  intros Hin Hrun.
  destruct (validate_loop_filter_own (is_about field) field rules
              VALIDATION_RULES (PDict d) errs Hin schema_fields_NoDup
              (schema_foreign_about field rules Hin) Hrun) as (es & Hes & ->).
  split.
  - intros Hreq Habs. rewrite (check_field_absent d field rules Habs), Hreq in Hes.
    injection Hes as <-. cbn [List.filter].
    rewrite is_about_missing. reflexivity.
  - intros value e Hv He.
    rewrite (check_field_present d field rules value Hv), type_call_int, He in Hes.
    destruct e; try discriminate; injection Hes as <-; cbn [List.filter];
      rewrite is_about_type; destruct (r_type rules); reflexivity.
Qed.

(** C3. The short-circuit within a field is not kept for every value that
    is not coercible. In [record_infinite] the field [age] is present and
    [int] raises [OverflowError] on its value; the iteration for [age]
    lets the exception through instead of appending "age must be of type
    int", so [validate_data] raises and returns no list of messages. *)
Theorem type_message_missed_on_infinity :
  record_infinite !! "age" = Some (PFloat (S754_infinity false)) /\
  py_int (PFloat (S754_infinity false)) = Raise OverflowError /\
  check_field (PDict record_infinite) "age" (ranged 18 100) [] = Raise OverflowError /\
  validate_data (PDict record_infinite) = Raise OverflowError.
Proof. repeat split; vm_compute; reflexivity. Qed.

(** *** Range checks *)








(** *** Accumulation across fields *)

Lemma validate_loop_concat items data errs :
  validate_loop items data [] = Ok errs <->
  exists per,
    Forall2 (fun item es => check_field data item.1 item.2 [] = Ok es) items per /\
    errs = concat per.
Proof.
  revert errs. induction items as [|[field rules] rest IH]; intros errs.
  - cbn. split.
    + intros [= <-]. exists []. split; [constructor | reflexivity].
    + intros (per & Hper & ->). inversion Hper. reflexivity.
  - rewrite validate_loop_cons. split.
    + intros (es & errs' & Hes & Hrest & ->).
      apply IH in Hrest as (per & Hper & ->).
      exists (es :: per). split; [constructor; assumption | reflexivity].
    + intros (per & Hper & ->). inversion Hper as [|? es ? per' Hes Hper']; subst.
      exists es, (concat per'). split; [exact Hes|]. split; [|reflexivity].
      apply IH. exists per'. split; [assumption | reflexivity].
Qed.

(** X16. [validate_data] returns a list exactly when every field of the
    table, taken on its own, yields a list of messages, and the result is
    these lists concatenated in table order; when the iteration of one
    field raises, no list is returned. A dict without [age] and with
    [sex = 5] on which a list is returned gives "Missing required field:
    age" followed by "sex must be one of [0, 1]", ahead of the messages of
    later fields. *)
Theorem errors_accumulate_in_schema_order :
  (forall data errs,
     validate_data data = Ok errs <->
     exists per,
       Forall2 (fun item es => check_field data item.1 item.2 [] = Ok es)
               VALIDATION_RULES per /\
       errs = concat per) /\
  (forall (d : gmap string pyval) errs,
     d !! "age" = None -> d !! "sex" = Some (PInt 5) ->
     validate_data (PDict d) = Ok errs ->
     exists rest,
       errs = "Missing required field: age" :: "sex must be one of [0, 1]" :: rest).
Proof.
  split.
  - intros data errs. apply validate_loop_concat.
  - intros d errs Hage Hsex Hrun. unfold validate_data, VALIDATION_RULES in Hrun.
    apply validate_loop_cons in Hrun as (es1 & errs1 & H1 & Hrun & ->).
    apply validate_loop_cons in Hrun as (es2 & errs2 & H2 & Hrun & ->).
    rewrite (check_field_absent d _ _ Hage) in H1. injection H1 as <-.
    rewrite (check_field_present d _ _ _ Hsex) in H2. injection H2 as <-.
    exists errs2. reflexivity.
Qed.

(** C5. The loop does not get to every field on every record. In
    [scenario2_infinite] ([age] missing, [sex = 5], [cp = inf],
    [trestbps = 300]) the iterations for [age] and [sex] yield their
    messages and the one for [trestbps] would yield "trestbps must be no
    more than 200", but the iteration for [cp] raises [OverflowError]:
    [validate_data] raises, the two messages collected are lost and
    [trestbps] is never checked. *)
Theorem loop_aborts_at_infinite_field :
  check_field (PDict scenario2_infinite) "age" (ranged 18 100) []
    = Ok ["Missing required field: age"] /\
  check_field (PDict scenario2_infinite) "sex" (one_of [0; 1]) []
    = Ok ["sex must be one of [0, 1]"] /\
  check_field (PDict scenario2_infinite) "cp" (one_of [0; 1; 2; 3]) []
    = Raise OverflowError /\
  check_field (PDict scenario2_infinite) "trestbps" (ranged 90 200) []
    = Ok ["trestbps must be no more than 200"] /\
  validate_data (PDict scenario2_infinite) = Raise OverflowError.
Proof. repeat split; vm_compute; reflexivity. Qed.

(** *** Feature assembly *)

(** C6. On the record of scenario 1, [validate_data] returns the empty list
    and the assembled row is [55,1,2,130,250,0,1,150,0,1,1,0,2]: the 13
    coerced values, one per field of the table, in table order. *)
Theorem scenario1_valid_and_assembled :
  validate_data (PDict scenario1) = Ok [] /\
  assemble (PDict scenario1) = Ok [55; 1; 2; 130; 250; 0; 1; 150; 0; 1; 1; 0; 2] /\
  Forall2 (fun field n => int_item (PDict scenario1) field = Ok n)
          schema_fields [55; 1; 2; 130; 250; 0; 1; 150; 0; 1; 1; 0; 2].
Proof.
  split; [vm_compute; reflexivity|]. split; [vm_compute; reflexivity|].
  unfold schema_fields, VALIDATION_RULES. cbn [fmap list_fmap fst].
  repeat (apply List.Forall2_cons; [vm_compute; reflexivity|]).
  apply List.Forall2_nil.
Qed.

(** *** Totality *)

(** On a dict, [int] is the only step that can raise, and only on an
    infinite float. *)
Lemma check_field_returns (d : gmap string pyval) field rules :
  (exists es, check_field (PDict d) field rules [] = Ok es) <->
  is_infinity_at d field = false.
Proof.
  unfold is_infinity_at. destruct (d !! field) as [value|] eqn:Hv.
  - rewrite (check_field_present d field rules value Hv), type_call_int.
    destruct value as [|b|n|x|s|l|d']; cbn; try (split; eauto; fail).
    + destruct x as [sg|sg| |sg m e]; cbn; try (split; eauto; fail).
      split; [intros [es H]|]; discriminate.
    + destruct (str_to_int s); split; eauto.
  - rewrite (check_field_absent d field rules Hv). split; eauto.
Qed.

Lemma validate_loop_returns (d : gmap string pyval) items :
  (exists errs, validate_loop items (PDict d) [] = Ok errs) <->
  existsb (is_infinity_at d) (fst <$> items) = false.
Proof.
  induction items as [|[field rules] rest IH].
  - cbn. split; eauto.
  - cbn [fmap list_fmap fst existsb]. rewrite orb_false_iff, <- IH.
    rewrite <- (check_field_returns d field rules). split.
    + intros [errs H]. apply validate_loop_cons in H as (es & errs' & ? & ? & _).
      eauto.
    + intros [[es Hes] [errs' Hrest]]. exists (es ++ errs').
      apply validate_loop_cons. eauto.
Qed.

Lemma validate_data_returns (d : gmap string pyval) :
  (exists errs, validate_data (PDict d) = Ok errs) <-> has_infinity d = false.
Proof. apply validate_loop_returns. Qed.

(** C7. [validate_data] is not total on dicts. On the record of scenario 1
    with [age] replaced by the float [inf] (what the JSON number [1e999] is
    read as), [int] raises [OverflowError]; the clause [except (ValueError,
    TypeError)] lets it through, so no list of errors is returned, and the
    endpoint answers 500 instead of 400. *)
Theorem validate_data_raises_on_infinity :
  validate_data (PDict record_infinite) = Raise OverflowError /\
  forall model now,
    status (predict model (Ok (PDict record_infinite)) now).1 = 500.
Proof. split; [|intros model now]; vm_compute; reflexivity. Qed.

(** *** The success response *)

(** C8. Whenever the endpoint answers 200, the model returned a label
    array and a probability matrix for the assembled row, and the body is
    [{"success": true, "prediction": label, "probability": {"negative":
    p0, "positive": p1}, "timestamp": now}] where [label] is entry 0 of the
    label array and [p0], [p1] are entries 0 and 1 of the first probability
    row: the labelling is by position, whatever the values and the label. *)
Theorem predict_success_labels_by_position model request_json now resp tr :
  predict model request_json now = (resp, tr) ->
  status resp = 200 ->
  exists data row prediction proba probs label negative positive,
    request_json = Ok data /\
    validate_data data = Ok [] /\
    assemble data = Ok row /\
    model_predict model [row] = Ok prediction /\
    model_predict_proba model [row] = Ok proba /\
    prediction !! 0%nat = Some label /\
    proba !! 0%nat = Some probs /\
    probs !! 0%nat = Some negative /\
    probs !! 1%nat = Some positive /\
    body resp =
      PDict {[ "success" := PBool true;
               "prediction" := PInt label;
               "probability" := PDict {[ "negative" := PFloat negative;
                                         "positive" := PFloat positive ]};
               "timestamp" := PStr now ]}.
Proof.
  unfold predict, predict_try, index.
  destruct request_json as [data|e]; cbn -[validate_data assemble];
    [|intros [= <- <-]; discriminate].
  destruct (validate_data data) as [[|err errs]|e] eqn:Hv; cbn -[assemble];
    [| intros [= <- <-]; discriminate ..].
  destruct (assemble data) as [row|e] eqn:Ha; cbn;
    [|intros [= <- <-]; discriminate].
  destruct (model_predict model [row]) as [prediction|e] eqn:Hp; cbn;
    [|intros [= <- <-]; discriminate].
  destruct (model_predict_proba model [row]) as [proba|e] eqn:Hpp; cbn;
    [|intros [= <- <-]; discriminate].
  destruct (proba !! 0%nat) as [probs|] eqn:H0; cbn;
    [|intros [= <- <-]; discriminate].
  destruct (prediction !! 0%nat) as [label|] eqn:Hl; cbn;
    [|intros [= <- <-]; discriminate].
  destruct (probs !! 0%nat) as [negative|] eqn:Hn; cbn;
    [|intros [= <- <-]; discriminate].
  destruct (probs !! 1%nat) as [positive|] eqn:Hps; cbn;
    [|intros [= <- <-]; discriminate].
  intros [= <- <-] _.
  exists data, row, prediction, proba, probs, label, negative, positive.
  repeat split; assumption || reflexivity.
Qed.

(** *** Purity *)

Lemma check_field_st_spec field rules st :
  exists st',
    check_field_st field rules st =
      (match check_field (st_data st) field rules (st_errors st) with
       | Ok _ => Ok tt
       | Raise e => Raise e
       end, st') /\
    st_data st' = st_data st /\ st_rules st' = st_rules st /\
    (forall errs, check_field (st_data st) field rules (st_errors st) = Ok errs ->
                  st_errors st' = errs).
Proof.
  unfold check_field_st, check_field, data_contains, data_item, mbind, stateful_bind.
  destruct (py_in field (st_data st)) as [present|e]; cbn;
    [|eexists; repeat split; discriminate].
  destruct present; cbn.
  - destruct (py_getitem (st_data st) field) as [value|e]; cbn;
      [|eexists; repeat split; discriminate].
    destruct (type_call (r_type rules) value) as [n|e]; cbn.
    + unfold check_value.
      destruct (r_min rules) as [lo|], (r_max rules) as [hi|],
        (r_allowed_values rules) as [vals|]; cbn;
        repeat match goal with |- context [if ?c then _ else _] => destruct c; cbn end;
        eexists; repeat split; intros errs [= <-]; reflexivity.
    + destruct e; cbn; eexists; repeat split;
        first [discriminate | intros errs [= <-]; reflexivity].
  - destruct (r_required rules); cbn;
      eexists; repeat split; intros errs [= <-]; reflexivity.
Qed.

Lemma validate_loop_st_spec items st :
  exists st',
    validate_loop_st items st =
      (match validate_loop items (st_data st) (st_errors st) with
       | Ok _ => Ok tt
       | Raise e => Raise e
       end, st') /\
    st_data st' = st_data st /\ st_rules st' = st_rules st /\
    (forall errs, validate_loop items (st_data st) (st_errors st) = Ok errs ->
                  st_errors st' = errs).
Proof.
  revert st. induction items as [|[field rules] rest IH]; intros st.
  - exists st. cbn. repeat split. intros errs [= <-]. reflexivity.
  - cbn [validate_loop_st validate_loop]. unfold mbind at 1, stateful_bind.
    destruct (check_field_st_spec field rules st) as (st1 & -> & Hd1 & Hr1 & He1).
    destruct (check_field (st_data st) field rules (st_errors st)) as [errs1|e].
    + rewrite bind_Ok. specialize (He1 errs1 eq_refl).
      destruct (IH st1) as (st2 & -> & Hd2 & Hr2 & He2).
      rewrite Hd1, He1 in *. exists st2.
      repeat split; first [assumption | congruence].
    + exists st1. repeat split; try assumption; try discriminate.
Qed.

Lemma validate_data_st_spec st :
  exists st',
    validate_data_st st = (validate_loop (st_rules st) (st_data st) [], st') /\
    st_data st' = st_data st /\ st_rules st' = st_rules st.
Proof.
  unfold validate_data_st, new_errors, read_rules, read_errors, mbind, stateful_bind.
  cbn [st_rules].
  destruct (validate_loop_st_spec (st_rules st)
              {| st_rules := st_rules st; st_data := st_data st; st_errors := [] |})
    as (st' & -> & Hd & Hr & He).
  cbn [st_data st_errors st_rules] in *.
  destruct (validate_loop (st_rules st) (st_data st) []) as [errs|e].
  - exists st'. rewrite (He errs eq_refl). repeat split; assumption.
  - exists st'. repeat split; assumption.
Qed.

(** C9. Run over a store, [validate_data] leaves the record and the rule
    table as they were, its outcome is the one the function of the record
    alone gives, and a second call, made in the store the first one left,
    has the same outcome. *)
Theorem validate_data_pure (st : store) :
  let (r1, st1) := validate_data_st st in
  let (r2, st2) := validate_data_st st1 in
  r1 = r2 /\
  st_data st1 = st_data st /\ st_rules st1 = st_rules st /\
  st_data st2 = st_data st /\ st_rules st2 = st_rules st /\
  (st_rules st = VALIDATION_RULES -> r1 = validate_data (st_data st)).
Proof.
  destruct (validate_data_st_spec st) as (st1 & -> & Hd1 & Hr1).
  destruct (validate_data_st_spec st1) as (st2 & -> & Hd2 & Hr2).
  rewrite Hd1, Hr1 in *.
  repeat split; try assumption.
  intros ->. reflexivity.
Qed.

(** *** Fractional values *)

Lemma float_to_int_truncate x :
  is_finite x = true -> float_to_int x = Ok (truncate (float_to_Q x)).
Proof.
  destruct x as [sg|sg| |sg m e]; try discriminate; intros _.
  - reflexivity.
  - unfold float_to_int, float_to_Q, truncate. f_equal.
    destruct e as [|k|k]; cbn [Qnum Qden].
    + rewrite Z.shiftl_0_r, Z.pow_0_r, Z.mul_1_r, Z.quot_1_r.
      destruct sg; reflexivity.
    + rewrite Z.quot_1_r, Z.shiftl_mul_pow2 by lia.
      destruct sg; [|reflexivity].
      rewrite <- Z.mul_opp_l. reflexivity.
    + change (Z.shiftl (Z.pos m) (Z.neg k)) with (Z.shiftr (Z.pos m) (Z.pos k)).
      rewrite Z.shiftr_div_pow2 by lia.
      rewrite Pos2Z.inj_pow.
      assert (Hpow : 0 < 2 ^ Z.pos k) by (apply Z.pow_pos_nonneg; lia).
      destruct sg.
      * change (Z.neg m) with (- Z.pos m).
        rewrite Z.quot_opp_l by lia. f_equal.
        symmetry. apply Z.quot_div_nonneg; lia.
      * symmetry. apply Z.quot_div_nonneg; lia.
Qed.

Lemma assemble_inv data row :
  assemble data = Ok row ->
  Forall2 (fun field n => int_item data field = Ok n) schema_fields row.
Proof.
  unfold assemble. intros H.
  repeat (apply bind_Ok_inv in H as (? & ? & H)).
  injection H as <-.
  unfold schema_fields, VALIDATION_RULES. cbn [fmap list_fmap fst].
  repeat (apply List.Forall2_cons; [assumption|]). apply List.Forall2_nil.
Qed.

(** C10. A finite float stored under [oldpeak] is coerced to its
    truncation toward zero (2.5 gives 2). When the truncated value lies in
    0..5, no message names [oldpeak] and entry 9 of the assembled row, the
    place of [oldpeak], is the truncated value. *)
Theorem oldpeak_fraction_truncated (d : gmap string pyval) x :
  d !! "oldpeak" = Some (PFloat x) ->
  is_finite x = true ->
  py_int (PFloat x) = Ok (truncate (float_to_Q x)) /\
  (0 <= truncate (float_to_Q x) <= 5 ->
   (forall errs, validate_data (PDict d) = Ok errs ->
                 List.filter (is_about "oldpeak") errs = []) /\
   (forall row, assemble (PDict d) = Ok row ->
                row !! 9%nat = Some (truncate (float_to_Q x)))).
Proof.
  intros Hd Hfin.
  pose proof (float_to_int_truncate x Hfin) as Hint.
  split; [exact Hint|]. intros Hrange. split.
  - intros errs Hrun.
    assert (Hin : In ("oldpeak", one_of [0; 1; 2; 3; 4; 5]) VALIDATION_RULES)
      by (cbn; tauto).
    destruct (validate_loop_filter_own (is_about "oldpeak") _ _
                VALIDATION_RULES (PDict d) errs Hin schema_fields_NoDup
                (schema_foreign_about _ _ Hin) Hrun) as (es & Hes & ->).
    rewrite (check_field_present d _ _ _ Hd) in Hes.
    cbn [type_call r_type one_of py_int] in Hes. rewrite Hint in Hes.
    injection Hes as <-.
    rewrite check_value_within; [reflexivity|].
    assert (Ht : truncate (float_to_Q x) = 0 \/ truncate (float_to_Q x) = 1 \/
                 truncate (float_to_Q x) = 2 \/ truncate (float_to_Q x) = 3 \/
                 truncate (float_to_Q x) = 4 \/ truncate (float_to_Q x) = 5) by lia.
    destruct Ht as [-> | [-> | [-> | [-> | [-> | ->]]]]]; reflexivity.
  - intros row Hrow. apply assemble_inv in Hrow.
    unfold schema_fields, VALIDATION_RULES in Hrow. cbn [fmap list_fmap fst] in Hrow.
    repeat (apply Forall2_cons_inv_l in Hrow as (? & ? & ? & Hrow & ->)).
    apply Forall2_nil_inv_l in Hrow as ->.
    match goal with
    | H : int_item (PDict d) "oldpeak" = Ok ?n |- _ =>
        unfold int_item in H; cbn [py_getitem] in H; rewrite Hd, bind_Ok in H;
        cbn [py_int] in H; rewrite Hint in H; injection H as <-
    end.
    reflexivity.
Qed.

(** *** Which records pass *)

Lemma check_value_within_inv field rules n :
  check_value field rules n [] = [] -> within rules n = true.
Proof.
  unfold check_value, within, not_in_list.
  destruct (r_min rules) as [lo|], (r_max rules) as [hi|],
    (r_allowed_values rules) as [vals|]; cbn [from_option];
    rewrite ?Z.gtb_ltb, ?Z.ltb_antisym;
    repeat match goal with
           | |- context [negb ?c] => destruct c; cbn [negb]
           end;
    cbn [app andb]; intros H; try discriminate H; reflexivity.
Qed.

Lemma validate_loop_valid_inv (d : gmap string pyval) items :
  forallb (fun item => r_required item.2) items = true ->
  validate_loop items (PDict d) [] = Ok [] ->
  forallb (field_valid d) items = true.
Proof.
  induction items as [|[field rules] rest IH]; intros Hreq H; [reflexivity|].
  cbn [forallb snd] in Hreq. apply andb_prop in Hreq as [Hreq Hreqs].
  apply validate_loop_cons in H as (es & errs' & Hes & Hrest & Hnil).
  symmetry in Hnil. apply app_eq_nil in Hnil as [-> ->].
  cbn [forallb]. rewrite (IH Hreqs Hrest), andb_true_r.
  unfold field_valid. cbn [fst snd].
  destruct (d !! field) as [value|] eqn:Hv.
  - rewrite (check_field_present d field rules value Hv), type_call_int in Hes.
    destruct (py_int value) as [n|[]]; try discriminate Hes.
    injection Hes as Hes. apply (check_value_within_inv field). exact Hes.
  - rewrite (check_field_absent d field rules Hv), Hreq in Hes. discriminate Hes.
Qed.

Lemma validate_data_dict_only data errs :
  validate_data data = Ok errs -> errs = [] -> exists d, data = PDict d.
Proof.
  intros H ->. unfold validate_data, VALIDATION_RULES in H.
  apply validate_loop_cons in H as (es & errs' & Hes & _ & Hnil).
  symmetry in Hnil. apply app_eq_nil in Hnil as [-> _].
  destruct data as [|b|n|x|s|l|d]; try discriminate Hes; [| |eauto].
  - unfold check_field in Hes. cbn in Hes.
    destruct (contains "age" s); discriminate Hes.
  - unfold check_field in Hes. cbn in Hes.
    destruct (existsb (is_str "age") l); discriminate Hes.
Qed.

Lemma validate_data_empty_inv data :
  validate_data data = Ok [] -> exists d, data = PDict d /\ valid_record d = true.
Proof.
  intros H. destruct (validate_data_dict_only data [] H eq_refl) as [d ->].
  exists d. split; [reflexivity|].
  apply validate_loop_valid_inv; [reflexivity | exact H].
Qed.

(** X1. The empty list is returned for valid dicts only: [validate_data]
    returns [[]] exactly when the body is a dict in which every field of
    the table is present, coercible and within its rule. *)
Theorem validate_data_empty_iff data :
  validate_data data = Ok [] <-> exists d, data = PDict d /\ valid_record d = true.
Proof.
  split; [apply validate_data_empty_inv|].
  intros (d & -> & H). apply validate_loop_valid. exact H.
Qed.

(** *** Assembly follows the table *)

Lemma assemble_intro data row :
  Forall2 (fun field n => int_item data field = Ok n) schema_fields row ->
  assemble data = Ok row.
Proof.
  unfold schema_fields, VALIDATION_RULES. cbn [fmap list_fmap fst]. intros H.
  repeat (apply Forall2_cons_inv_l in H as (? & ? & ? & H & ->)).
  apply Forall2_nil_inv_l in H as ->.
  unfold assemble.
  repeat match goal with
         | E : int_item data _ = Ok _ |- _ => rewrite E, bind_Ok; clear E
         end.
  reflexivity.
Qed.

(** X2. The row built in [predict] and the rule table agree: assembly
    succeeds with [row] exactly when [row] lists [int(data[f])] for the 13
    fields [f] of the table, in table order; it raises as soon as one of
    them is missing or not coercible. *)
Theorem assemble_follows_schema data row :
  assemble data = Ok row <->
  Forall2 (fun field n => int_item data field = Ok n) schema_fields row.
Proof. split; [apply assemble_inv | apply assemble_intro]. Qed.

Lemma valid_fields_coerced (d : gmap string pyval) items :
  forallb (field_valid d) items = true ->
  exists row,
    Forall2 (fun field n => int_item (PDict d) field = Ok n) (fst <$> items) row /\
    Forall2 (fun item n => within item.2 n = true) items row.
Proof.
  induction items as [|[field rules] rest IH]; intros H.
  - exists []. split; constructor.
  - cbn [forallb] in H. apply andb_prop in H as [Hitem Hrest].
    destruct (IH Hrest) as (row & Hrow & Hwithin).
    unfold field_valid in Hitem. cbn [fst snd] in Hitem.
    destruct (d !! field) as [value|] eqn:Hv; [|discriminate].
    destruct (py_int value) as [n|e] eqn:Hn; [|discriminate].
    exists (n :: row). split; constructor; try assumption.
    unfold int_item. cbn [py_getitem fst]. rewrite Hv, bind_Ok. exact Hn.
Qed.

Lemma validate_empty_assembles data :
  validate_data data = Ok [] ->
  exists row,
    assemble data = Ok row /\
    length row = 13%nat /\
    Forall2 (fun item n => within item.2 n = true) VALIDATION_RULES row.
Proof.
  intros H. apply validate_data_empty_inv in H as (d & -> & Hvalid).
  destruct (valid_fields_coerced d VALIDATION_RULES Hvalid) as (row & Hrow & Hwithin).
  exists row. split; [apply assemble_intro; exact Hrow|]. split; [|exact Hwithin].
  apply Forall2_length in Hwithin. rewrite <- Hwithin. reflexivity.
Qed.

(** X3. A body that passes validation always assembles: when
    [validate_data] returns [[]], [assemble] returns a row of 13 integers,
    each within the bounds or the allowed set of its field. *)
Theorem validated_record_assembles data :
  validate_data data = Ok [] ->
  exists row,
    assemble data = Ok row /\
    length row = 13%nat /\
    Forall2 (fun item n => within item.2 n = true) VALIDATION_RULES row.
Proof. apply validate_empty_assembles. Qed.

(** *** The shape of the error list *)

Lemma table_rule_shape field rules :
  In (field, rules) VALIDATION_RULES ->
  r_required rules = true /\
  ((exists lo hi, rules = ranged lo hi /\ lo <= hi) \/ exists vals, rules = one_of vals).
Proof.
  intros H. cbn in H.
  repeat (destruct H as [[= <- <-]|H];
          [split; [reflexivity|];
           first [left; do 2 eexists; split; [reflexivity | lia]
                 | right; eexists; reflexivity]|]).
  destruct H.
Qed.



Lemma check_field_le1 data field rules es :
  In (field, rules) VALIDATION_RULES ->
  check_field data field rules [] = Ok es -> (length es <= 1)%nat.
Proof.
  intros Hin. unfold check_field.
  destruct (py_in field data) as [present|e]; [|discriminate].
  rewrite bind_Ok. destruct present; cbn [negb].
  - destruct (py_getitem data field) as [value|e]; [|discriminate].
    rewrite bind_Ok.
    destruct (type_call (r_type rules) value) as [n|[]]; try discriminate;
      intros [= <-]; [|cbn; lia..].
    destruct (table_rule_shape field rules Hin) as [_ [(lo & hi & -> & Hord)|[vals ->]]];
      unfold check_value; cbn [r_min r_max r_allowed_values ranged one_of].
    + destruct (n <? lo) eqn:Hlo, (n >? hi) eqn:Hhi; cbn [app length]; lia.
    + destruct (not_in_list n vals); cbn; lia.
  - intros [= <-]. destruct (r_required rules); cbn; lia.
Qed.

Lemma validate_loop_length items data errs :
  (forall item, In item items -> In item VALIDATION_RULES) ->
  validate_loop items data [] = Ok errs -> (length errs <= length items)%nat.
Proof.
  revert errs. induction items as [|[field rules] rest IH]; intros errs Hsub H.
  - cbn in H. injection H as <-. cbn. lia.
  - apply validate_loop_cons in H as (es & errs' & Hes & Hrest & ->).
    rewrite length_app. cbn [length].
    pose proof (check_field_le1 data field rules es (Hsub _ (or_introl eq_refl)) Hes).
    pose proof (IH errs' (fun item Hi => Hsub item (or_intror Hi)) Hrest).
    lia.
Qed.

(** X5. A response never carries more than one message per field: the
    list [validate_data] returns has at most 13 messages, and for each
    field of the table at most one of them names it (in particular a
    bounded field never gets both bound messages). *)
Theorem at_most_one_error_per_field data errs :
  validate_data data = Ok errs ->
  (length errs <= 13)%nat /\
  forall field rules, In (field, rules) VALIDATION_RULES ->
    (length (List.filter (is_about field) errs) <= 1)%nat.
Proof.
  intros Hrun. split.
  - apply (validate_loop_length VALIDATION_RULES data errs); [auto | exact Hrun].
  - intros field rules Hin.
    destruct (validate_loop_filter_own (is_about field) field rules
                VALIDATION_RULES data errs Hin schema_fields_NoDup
                (schema_foreign_about field rules Hin) Hrun) as (es & Hes & ->).
    pose proof (check_field_le1 data field rules es Hin Hes).
    pose proof (List.filter_length_le (is_about field) es). lia.
Qed.

Lemma validate_loop_msgs items data errs :
  validate_loop items data [] = Ok errs ->
  Forall (fun e => exists g r, In (g, r) items /\ In e (possible_msgs g r)) errs.
Proof.
  revert errs. induction items as [|[field rules] rest IH]; intros errs H.
  - cbn in H. injection H as <-. apply List.Forall_nil.
  - apply validate_loop_cons in H as (es & errs' & Hes & Hrest & ->).
    apply Forall_app. split.
    + eapply Forall_impl; [apply (check_field_possible _ _ _ _ Hes)|].
      intros e He. exists field, rules. split; [left; reflexivity | exact He].
    + eapply Forall_impl; [apply (IH _ Hrest)|].
      intros e (g & r & Hg & He). exists g, r. split; [right; exact Hg | exact He].
Qed.

(** In the table, a message an iteration can append names the field of
    that iteration and no other field. *)
Lemma table_msgs_exclusive g r e f :
  In (g, r) VALIDATION_RULES -> In e (possible_msgs g r) -> In f schema_fields ->
  is_about f e = String.eqb f g.
Proof.
  intros Hg He Hf.
  assert (Hall : forallb (fun item =>
                   forallb (fun e =>
                     forallb (fun f => Bool.eqb (is_about f e) (String.eqb f item.1))
                             schema_fields)
                     (possible_msgs item.1 item.2))
                   VALIDATION_RULES = true) by (vm_compute; reflexivity).
  rewrite forallb_forall in Hall. specialize (Hall (g, r) Hg). cbn [fst snd] in Hall.
  rewrite forallb_forall in Hall. specialize (Hall e He).
  rewrite forallb_forall in Hall. specialize (Hall f Hf).
  apply Bool.eqb_prop. exact Hall.
Qed.

Lemma filter_all {A} (P : A -> bool) (l : list A) :
  Forall (fun e => P e = true) l -> List.filter P l = l.
Proof.
  induction 1 as [|e l He _ IH]; [reflexivity|]. cbn. rewrite He, IH. reflexivity.
Qed.

Lemma filter_nil {A} (P : A -> bool) (l : list A) :
  Forall (fun e => P e = false) l -> List.filter P l = [].
Proof.
  induction 1 as [|e l He _ IH]; [reflexivity|]. cbn. rewrite He. exact IH.
Qed.

Lemma validate_loop_grouped items data errs :
  (forall item, In item items -> In item VALIDATION_RULES) ->
  NoDup (map fst items) ->
  validate_loop items data [] = Ok errs ->
  errs = concat (map (fun field => List.filter (is_about field) errs) (map fst items)).
Proof.
  revert errs. induction items as [|[g r] rest IH]; intros errs Hsub Hnd H.
  - cbn in H. injection H as <-. reflexivity.
  - apply validate_loop_cons in H as (es & errs' & Hes & Hrest & ->).
    cbn [map fst] in Hnd. apply NoDup_cons in Hnd as [Hg Hnd].
    assert (Hsub' : forall item, In item rest -> In item VALIDATION_RULES)
      by (intros item Hi; apply Hsub; right; exact Hi).
    assert (Hgin : In (g, r) VALIDATION_RULES) by (apply Hsub; left; reflexivity).
    assert (Hschema : forall item, In item VALIDATION_RULES -> In item.1 schema_fields)
      by (intros item Hi; apply in_map; exact Hi).
    pose proof (check_field_possible _ _ _ _ Hes) as Hposs.
    pose proof (validate_loop_msgs _ _ _ Hrest) as Hmsgs.
    cbn [map fst concat]. rewrite List.filter_app.
    assert (Hown : List.filter (is_about g) es = es).
    { apply filter_all. eapply Forall_impl; [exact Hposs|]. intros e He.
      rewrite (table_msgs_exclusive g r e g Hgin He (Hschema _ Hgin)).
      apply String.eqb_refl. }
    assert (Hother : List.filter (is_about g) errs' = []).
    { apply filter_nil. eapply Forall_impl; [exact Hmsgs|].
      intros e (g' & r' & Hg' & He).
      rewrite (table_msgs_exclusive g' r' e g (Hsub' _ Hg') He (Hschema _ Hgin)).
      apply String.eqb_neq. intros ->. apply Hg. apply list_elem_of_In.
      change g' with (fst (g', r')). apply in_map. exact Hg'. }
    rewrite Hown, Hother, app_nil_r. f_equal.
    rewrite (IH errs' Hsub' Hnd Hrest) at 1. f_equal.
    apply map_ext_in. intros f Hf. rewrite List.filter_app.
    replace (List.filter (is_about f) es) with (@nil string); [reflexivity|].
    symmetry. apply filter_nil. eapply Forall_impl; [exact Hposs|]. intros e He.
    apply in_map_iff in Hf as (item & <- & Hitem).
    rewrite (table_msgs_exclusive g r e item.1 Hgin He (Hschema _ (Hsub' _ Hitem))).
    apply String.eqb_neq. intros Heq. apply Hg. apply list_elem_of_In.
    rewrite <- Heq. apply in_map. exact Hitem.
Qed.

(** X6. The messages come grouped by field, in table order, and every
    message names a field of the table: the returned list is the
    concatenation, over the fields in table order, of the messages naming
    each field. *)
Theorem errors_grouped_by_field data errs :
  validate_data data = Ok errs ->
  errs = concat (map (fun field => List.filter (is_about field) errs) schema_fields).
Proof.
  intros H.
  apply (validate_loop_grouped VALIDATION_RULES data errs); [auto | | exact H].
  apply schema_fields_NoDup.
Qed.

(** *** What a record is read through *)

Lemma check_field_agree (d1 d2 : gmap string pyval) field rules errors :
  py_int <$> d1 !! field = py_int <$> d2 !! field ->
  check_field (PDict d1) field rules errors = check_field (PDict d2) field rules errors.
Proof.
  intros H. unfold check_field. cbn [py_in py_getitem].
  destruct (d1 !! field) as [v1|], (d2 !! field) as [v2|]; try discriminate H;
    [|reflexivity].
  injection H as H. rewrite !bind_Ok. cbn [negb]. rewrite !type_call_int, H.
  reflexivity.
Qed.

Lemma validate_loop_agree (d1 d2 : gmap string pyval) items errors :
  (forall field, In field (map fst items) ->
                 py_int <$> d1 !! field = py_int <$> d2 !! field) ->
  validate_loop items (PDict d1) errors = validate_loop items (PDict d2) errors.
Proof.
  revert errors. induction items as [|[field rules] rest IH]; intros errors H;
    [reflexivity|].
  cbn [validate_loop].
  rewrite (check_field_agree d1 d2 field rules errors) by (apply H; left; reflexivity).
  destruct (check_field (PDict d2) field rules errors) as [errors'|e]; [|reflexivity].
  rewrite !bind_Ok. apply IH. intros f Hf. apply H. right. exact Hf.
Qed.

Lemma int_item_agree (d1 d2 : gmap string pyval) field :
  py_int <$> d1 !! field = py_int <$> d2 !! field ->
  int_item (PDict d1) field = int_item (PDict d2) field.
Proof.
  intros H. unfold int_item. cbn [py_getitem].
  destruct (d1 !! field) as [v1|], (d2 !! field) as [v2|]; try discriminate H;
    [|reflexivity].
  injection H as H. rewrite !bind_Ok. exact H.
Qed.

Lemma predict_response_agree model now data1 data2 :
  validate_data data1 = validate_data data2 ->
  assemble data1 = assemble data2 ->
  (predict model (Ok data1) now).1 = (predict model (Ok data2) now).1.
Proof.
  intros Hv Ha. unfold predict, predict_try, index.
  cbn -[validate_data assemble]. rewrite Hv, Ha.
  destruct (validate_data data2) as [[|err errs]|e]; cbn -[assemble];
    [|reflexivity..].
  destruct (assemble data2) as [row|e]; cbn; [|reflexivity].
  destruct (model_predict model [row]) as [prediction|e]; cbn; [|reflexivity].
  destruct (model_predict_proba model [row]) as [proba|e]; cbn; [|reflexivity].
  destruct (proba !! 0%nat) as [probs|]; cbn; [|reflexivity].
  destruct (prediction !! 0%nat) as [label|]; cbn; [|reflexivity].
  destruct (probs !! 0%nat) as [negative|]; cbn; [|reflexivity].
  destruct (probs !! 1%nat) as [positive|]; cbn; reflexivity.
Qed.

(** X7. A record is read only through [int] of its 13 table fields: two
    dicts in which every field of the table is absent from both, or
    present in both with the same outcome of [int], get the same result
    from [validate_data], the same assembled row and the same response.
    Keys outside the table are ignored, and "55", 55 and 55.0, or [true]
    and 1, are interchangeable. *)
Theorem record_read_through_int (d1 d2 : gmap string pyval) :
  (forall field, In field schema_fields ->
                 py_int <$> d1 !! field = py_int <$> d2 !! field) ->
  validate_data (PDict d1) = validate_data (PDict d2) /\
  assemble (PDict d1) = assemble (PDict d2) /\
  forall model now,
    (predict model (Ok (PDict d1)) now).1 = (predict model (Ok (PDict d2)) now).1.
Proof.
  intros H.
  assert (Hv : validate_data (PDict d1) = validate_data (PDict d2))
    by (apply validate_loop_agree; exact H).
  assert (Ha : assemble (PDict d1) = assemble (PDict d2)).
  { unfold assemble.
    repeat match goal with
           | |- context [int_item (PDict d1) ?f] =>
               rewrite (int_item_agree d1 d2 f)
                 by (apply H; unfold schema_fields, VALIDATION_RULES;
                     cbn [fmap list_fmap fst In];
                     repeat first [left; reflexivity | right])
           end.
    reflexivity. }
  split; [exact Hv|]. split; [exact Ha|].
  intros model now. apply predict_response_agree; assumption.
Qed.

(** *** Every way a request can end *)

Lemma predict_outcome model request_json now :
  outcome model now request_json
    (predict model request_json now).1 (predict model request_json now).2.
Proof.
  unfold predict, predict_try, index.
  destruct request_json as [data|e]; cbn -[validate_data assemble];
    [|apply unreadable].
  destruct (validate_data data) as [[|err errs]|e] eqn:Hv; cbn -[assemble];
    [| apply rejected; [exact Hv | discriminate]
     | apply validation_raised; exact Hv].
  destruct (validate_empty_assembles data Hv) as (row & Ha & _).
  rewrite Ha. cbn.
  destruct (model_predict model [row]) as [prediction|e] eqn:Hp; cbn;
    [|eapply predict_raised; eassumption].
  destruct (model_predict_proba model [row]) as [proba|e] eqn:Hpp; cbn;
    [|eapply predict_proba_raised; eassumption].
  destruct proba as [|probs rows]; cbn;
    [eapply output_too_short; eauto|].
  destruct prediction as [|label rest]; cbn;
    [eapply output_too_short; eauto|].
  destruct probs as [|negative [|positive ps]]; cbn;
    [eapply output_too_short; eauto; right; right; do 2 eexists; split;
       [reflexivity | cbn; lia] ..|].
  eapply answered; eassumption.
Qed.

Lemma predict_outcome_at model request_json now resp tr :
  predict model request_json now = (resp, tr) ->
  outcome model now request_json resp tr.
Proof.
  intros H. pose proof (predict_outcome model request_json now) as Ho.
  rewrite H in Ho. exact Ho.
Qed.

(** X8. The model is called only for a body that passed validation. The
    trace of a request has no model call, or the body validated to [[]]
    and assembled to [row], and the calls are [predict([row])] alone when
    it raised, or [predict([row])] followed by [predict_proba([row])]
    when it returned: each at most once, on the same one-row matrix. *)
Theorem model_called_only_after_validation model request_json now :
  model_calls (predict model request_json now).2 = [] \/
  exists data row,
    request_json = Ok data /\ validate_data data = Ok [] /\ assemble data = Ok row /\
    ((model_calls (predict model request_json now).2 = [CallPredict [row]] /\
      exists e, model_predict model [row] = Raise e) \/
     (model_calls (predict model request_json now).2
        = [CallPredict [row]; CallPredictProba [row]] /\
      exists prediction, model_predict model [row] = Ok prediction)).
Proof.
  destruct (predict model request_json now) as [resp tr] eqn:Hp. cbn [snd].
  apply predict_outcome_at in Hp.
  destruct Hp; [left; reflexivity .. | | | |];
    right; exists data, row; repeat split; try assumption;
    first [left; split; [reflexivity | eauto]
          | right; split; [reflexivity | eauto]].
Qed.

(** X9. With a model that always returns at least one label and a first
    probability row of two entries, validation alone decides the status:
    200 when [validate_data] returns [[]], 400 when it returns messages,
    500 when it raises. *)
Theorem status_decided_by_validation model data now :
  well_shaped model ->
  status (predict model (Ok data) now).1 =
    match validate_data data with
    | Ok [] => 200
    | Ok (_ :: _) => 400
    | Raise _ => 500
    end.
Proof.
  intros Hm.
  destruct (predict model (Ok data) now) as [resp tr] eqn:Hp. cbn [fst].
  apply predict_outcome_at in Hp.
  inversion Hp as [ | ? e Hv | ? errs Hv Hne | ? row e Hv Ha Hmp
                  | ? row prediction e Hv Ha Hmp Hmpp
                  | ? row prediction proba Hv Ha Hmp Hmpp Hshort
                  | ? row label rest negative positive ps rows Hv Ha Hmp Hmpp ];
    subst; rewrite Hv; cbn [status internal_error]; try reflexivity.
  - destruct errs; [contradiction | reflexivity].
  - destruct (Hm [row]) as [(l & r & Hl) _]. congruence.
  - destruct (Hm [row]) as [_ (n & p & q & r & Hl)]. congruence.
  - destruct (Hm [row]) as [(l & r & Hl) (n & p & q & r' & Hr)].
    rewrite Hl in Hmp. rewrite Hr in Hmpp.
    injection Hmp as <-. injection Hmpp as <-.
    destruct Hshort as [H | [H | (probs & rows & H & Hlen)]]; try discriminate H.
    injection H as <- <-. cbn in Hlen. lia.
Qed.

(** X10. Every response has status 200, 400 or 500. It is 400 exactly
    when [validate_data] returned a non-empty list, and the body then
    carries that list; it is 500 exactly when the trace ends with the
    logged exception, and the body is then the fixed
    [{"success": false, "error": "Internal server error"}], whatever the
    exception was. *)
Theorem response_classification model request_json now :
  let resp := (predict model request_json now).1 in
  let tr := (predict model request_json now).2 in
  (status resp = 200 \/ status resp = 400 \/ status resp = 500) /\
  (status resp = 400 <->
   exists data errs, request_json = Ok data /\ validate_data data = Ok errs /\
                     errs <> [] /\ body resp = errors_body errs) /\
  (status resp = 500 <-> exists e, last tr = Some (LogError e)) /\
  (status resp = 500 ->
   body resp = PDict {[ "success" := PBool false;
                        "error" := PStr "Internal server error" ]}).
Proof.
  destruct (predict model request_json now) as [resp tr] eqn:Hp. cbn [fst snd].
  apply predict_outcome_at in Hp.
  destruct Hp; cbn [status body internal_error last];
    (split; [tauto|]); (split; [|split]);
    try (intros _; reflexivity); try discriminate;
    try (split; [intros _; eexists; reflexivity | intros _; reflexivity]);
    try (split; [discriminate | intros [e' He']; discriminate He']);
    try (split; [discriminate|];
         intros (d & errs' & Hd & Hv' & Hne' & _);
         first [discriminate Hd | injection Hd as <-; congruence]).
  split; [intros _; exists data, errs; auto | intros _; reflexivity].
Qed.

(** X11. A model failure never yields a partial answer. For a validated
    body, if [predict] or [predict_proba] raises, or returns no label, no
    probability row, or a first row of fewer than two entries, the
    response is the generic one with status 500. *)
Theorem model_failure_gives_500 model data now row :
  validate_data data = Ok [] ->
  assemble data = Ok row ->
  (exists e, model_predict model [row] = Raise e) \/
  (exists e, model_predict_proba model [row] = Raise e) \/
  model_predict model [row] = Ok [] \/
  model_predict_proba model [row] = Ok [] \/
  (exists probs rows, model_predict_proba model [row] = Ok (probs :: rows) /\
                      (length probs < 2)%nat) ->
  (predict model (Ok data) now).1 =
    {| body := PDict {[ "success" := PBool false;
                        "error" := PStr "Internal server error" ]};
       status := 500 |}.
Proof.
  intros Hv Ha Hfail.
  destruct (predict model (Ok data) now) as [resp tr] eqn:Hp. cbn [fst].
  apply predict_outcome_at in Hp.
  inversion Hp as [ | ? e Hv' | ? errs Hv' Hne | ? row' e Hv' Ha' Hmp
                  | ? row' prediction e Hv' Ha' Hmp Hmpp
                  | ? row' prediction proba Hv' Ha' Hmp Hmpp Hshort
                  | ? row' label rest negative positive ps rows Hv' Ha' Hmp Hmpp ];
    subst; try reflexivity; try congruence.
  rewrite Ha in Ha'. injection Ha' as <-.
  destruct Hfail as [[e H] | [[e H] | [H | [H | (probs & rows' & H & Hlen)]]]];
    try congruence.
  rewrite Hmpp in H. injection H as <- <-. cbn in Hlen. lia.
Qed.

(** *** Bodies that are not dicts, and what [validate_data] can raise *)

Lemma validate_loop_non_dict data (p : string -> bool) items errors :
  (forall field, py_in field data = Ok (p field)) ->
  (forall field, py_getitem data field = Raise TypeError) ->
  forallb (fun item => r_required item.2) items = true ->
  validate_loop items data errors =
    if existsb p (map fst items) then Raise TypeError
    else Ok (errors ++ map msg_missing (map fst items)).
Proof.
  intros Hin Hget. revert errors.
  induction items as [|[field rules] rest IH]; intros errors Hreq.
  - cbn. rewrite app_nil_r. reflexivity.
  - cbn [forallb snd] in Hreq. apply andb_prop in Hreq as [Hreq Hreqs].
    cbn [validate_loop map fst existsb]. unfold check_field.
    rewrite Hin, bind_Ok. destruct (p field); cbn [negb orb].
    + rewrite Hget. reflexivity.
    + rewrite Hreq. cbn [mret result_ret]. rewrite bind_Ok, (IH _ Hreqs).
      destruct (existsb p (map fst rest)); [reflexivity|].
      rewrite <- app_assoc. reflexivity.
Qed.

Lemma validate_data_list l :
  validate_data (PList l) =
    if list_names_field l then Raise TypeError else Ok (map msg_missing schema_fields).
Proof.
  apply (validate_loop_non_dict (PList l) (fun field => existsb (is_str field) l)
           VALIDATION_RULES []); reflexivity.
Qed.

Lemma validate_data_str s :
  validate_data (PStr s) =
    if str_names_field s then Raise TypeError else Ok (map msg_missing schema_fields).
Proof.
  apply (validate_loop_non_dict (PStr s) (fun field => contains field s)
           VALIDATION_RULES []); reflexivity.
Qed.

Lemma validate_data_non_dict data :
  (forall d, data <> PDict d) ->
  validate_data data =
    match data with
    | PList l =>
        if list_names_field l then Raise TypeError else Ok (map msg_missing schema_fields)
    | PStr s =>
        if str_names_field s then Raise TypeError else Ok (map msg_missing schema_fields)
    | _ => Raise TypeError
    end.
Proof.
  intros Hd. destruct data as [|b|n|x|s|l|d]; try reflexivity.
  - apply validate_data_str.
  - apply validate_data_list.
  - exfalso. exact (Hd d eq_refl).
Qed.

(** X12. A body that is not a dict never reaches the model. [null], a
    boolean or a number makes [validate_data] raise [TypeError] (status
    500). A list or a string body is reported as missing all 13 fields, in
    table order (status 400), unless the list holds the name of a field as
    an element, or the string holds it as a substring: then [data[field]]
    raises [TypeError] (status 500). *)
Theorem non_dict_bodies data :
  (forall d, data <> PDict d) ->
  validate_data data =
    match data with
    | PList l =>
        if list_names_field l then Raise TypeError else Ok (map msg_missing schema_fields)
    | PStr s =>
        if str_names_field s then Raise TypeError else Ok (map msg_missing schema_fields)
    | _ => Raise TypeError
    end /\
  forall model now,
    status (predict model (Ok data) now).1 =
      match validate_data data with
      | Ok _ => 400
      | Raise _ => 500
      end /\
    model_calls (predict model (Ok data) now).2 = [].
Proof.
  intros Hd. split; [apply validate_data_non_dict; exact Hd|].
  intros model now.
  destruct (predict model (Ok data) now) as [resp tr] eqn:Hp. cbn [fst snd].
  apply predict_outcome_at in Hp.
  inversion Hp as [ | ? e Hv | ? errs Hv Hne | ? row' e Hv Ha' Hmp
                  | ? row' prediction e Hv Ha' Hmp Hmpp
                  | ? row' prediction proba Hv Ha' Hmp Hmpp Hshort
                  | ? row' label rest negative positive ps rows Hv Ha' Hmp Hmpp ];
    subst; rewrite Hv; try (split; reflexivity);
    apply validate_data_empty_inv in Hv as (d & -> & _);
    exfalso; exact (Hd d eq_refl).
Qed.

Lemma py_int_exceptions value e :
  py_int value = Raise e -> e = ValueError \/ e = TypeError \/ e = OverflowError.
Proof.
  destruct value as [|b|n|x|s|l|d]; cbn; try (intros [= <-]; tauto); try discriminate.
  - destruct x as [sg|sg| |sg m ex]; cbn; try discriminate; intros [= <-]; tauto.
  - destruct (str_to_int s); [discriminate|]. intros [= <-]. tauto.
Qed.

Lemma validate_loop_dict_raises (d : gmap string pyval) items errors e :
  validate_loop items (PDict d) errors = Raise e -> e = OverflowError.
Proof.
  revert errors. induction items as [|[field rules] rest IH]; intros errors H;
    [discriminate H|].
  cbn [validate_loop] in H.
  destruct (check_field (PDict d) field rules errors) as [errors'|e'] eqn:Hc.
  - rewrite bind_Ok in H. exact (IH _ H).
  - cbn in H. injection H as <-.
    unfold check_field in Hc. cbn [py_in py_getitem] in Hc.
    destruct (d !! field) as [value|]; rewrite !bind_Ok in Hc; cbn [negb] in Hc;
      [|discriminate Hc].
    rewrite type_call_int in Hc.
    destruct (py_int value) as [n|e''] eqn:Hn; [discriminate Hc|].
    destruct (py_int_exceptions value e'' Hn) as [-> | [-> | ->]];
      [discriminate Hc | discriminate Hc | injection Hc as <-; reflexivity].
Qed.

(** X13. What [validate_data] can raise. On any body it raises nothing
    but [TypeError] or [OverflowError]. On a dict it raises nothing but
    [OverflowError], and it does so exactly when a field of the table
    holds an infinite float; otherwise it returns a list. *)
Theorem validate_data_exceptions :
  (forall data e, validate_data data = Raise e -> e = TypeError \/ e = OverflowError) /\
  (forall (d : gmap string pyval) e,
     validate_data (PDict d) = Raise e -> e = OverflowError) /\
  (forall d : gmap string pyval,
     (exists e, validate_data (PDict d) = Raise e) <-> has_infinity d = true).
Proof.
  assert (Hdict : forall (d : gmap string pyval) e,
             validate_data (PDict d) = Raise e -> e = OverflowError)
    by (intros d e; apply validate_loop_dict_raises).
  split; [|split; [exact Hdict|]].
  - intros data e H.
    destruct data as [|b|n|x|s|l|d]; [| | | | | |right; exact (Hdict d e H)];
      left; rewrite validate_data_non_dict in H by (intros d; discriminate);
      repeat match type of H with
             | (if ?c then _ else _) = _ => destruct c
             end;
      congruence.
  - intros d. pose proof (validate_data_returns d) as Hret. split.
    + intros [e He]. destruct (has_infinity d); [reflexivity|].
      destruct (proj2 Hret eq_refl) as [errs Herrs]. congruence.
    + intros Hinf. destruct (validate_data (PDict d)) as [errs|e] eqn:Hv; [|eauto].
      assert (has_infinity d = false) by (apply Hret; eauto). congruence.
Qed.

(** *** The fields the messages name *)

(** X14. The messages name exactly the invalid fields: for a field of the
    table, no message of the returned list names it if and only if the
    field is present in the dict, coercible and within its rule. *)
Theorem errors_name_invalid_fields (d : gmap string pyval) field rules errs :
  In (field, rules) VALIDATION_RULES ->
  validate_data (PDict d) = Ok errs ->
  (List.filter (is_about field) errs = [] <-> field_valid d (field, rules) = true).
Proof.
  intros Hin Hrun.
  destruct (validate_loop_filter_own (is_about field) field rules
              VALIDATION_RULES (PDict d) errs Hin schema_fields_NoDup
              (schema_foreign_about field rules Hin) Hrun) as (es & Hes & ->).
  assert (Hown : List.filter (is_about field) es = es).
  { apply filter_all.
    eapply Forall_impl; [apply (check_field_possible _ _ _ _ Hes)|].
    intros e He.
    rewrite (table_msgs_exclusive field rules e field Hin He).
    - apply String.eqb_refl.
    - change field with (fst (field, rules)). apply in_map. exact Hin. }
  rewrite Hown. unfold field_valid. cbn [fst snd].
  destruct (table_rule_shape field rules Hin) as [Hreq _].
  destruct (d !! field) as [value|] eqn:Hv.
  - rewrite (check_field_present d field rules value Hv), type_call_int in Hes.
    destruct (py_int value) as [n|[]]; try discriminate Hes; injection Hes as <-.
    + split; [apply check_value_within_inv | apply check_value_within].
    + split; discriminate.
    + split; discriminate.
  - rewrite (check_field_absent d field rules Hv), Hreq in Hes. injection Hes as <-.
    split; discriminate.
Qed.

(** *** Short-circuit within a field of a returned list *)

(** X15. In a list that [validate_data] returns, a field of the table that
    is absent from the dict is named by the one message "Missing required
    field: f", and a present field on whose value [int] raises
    [ValueError] or [TypeError] is named by the one message "f must be of
    type int": no range or allowed-value message follows either. *)
Theorem short_circuit_in_returned_list (d : gmap string pyval) field rules errs :
  In (field, rules) VALIDATION_RULES ->
  validate_data (PDict d) = Ok errs ->
  (d !! field = None ->
   List.filter (is_about field) errs = ["Missing required field: " +:+ field]) /\
  (forall value, d !! field = Some value ->
   py_int value = Raise ValueError \/ py_int value = Raise TypeError ->
   List.filter (is_about field) errs = [field +:+ " must be of type int"]).
Proof.
  intros Hin Hrun.
  destruct (field_short_circuit d field rules errs Hin Hrun) as [Habs Htype].
  destruct (table_rule_shape field rules Hin) as [Hreq _].
  split.
  - intros Hnone. exact (Habs Hreq Hnone).
  - intros value Hv [He|He]; exact (Htype value _ Hv He).
Qed.

End Pipeline.

(** ** The pipeline on concrete requests *)

Example ascii_int_examples :
  ascii_int "42" = Some 42 /\ ascii_int " -3_0 " = Some (-30) /\
  ascii_int "+7" = Some 7 /\ ascii_int "male" = None /\
  ascii_int "1__0" = None /\ ascii_int "2.5" = None /\ ascii_int "" = None /\
  ascii_int (String (ascii_of_nat 28) "55") = None.
Proof. repeat split; reflexivity. Qed.

Example scenario3_errors :
  validate_data ascii_int (PDict scenario3) = Ok ["trestbps must be no more than 200"].
Proof. vm_compute. reflexivity. Qed.

Lemma validate_data_valid_record_witness :
  valid_record ascii_int scenario1 = true /\
  validate_data ascii_int (PDict scenario1) = Ok [].
Proof.
  split; [vm_compute; reflexivity|].
  apply (validate_data_valid_record ascii_int scenario1).
  vm_compute. reflexivity.
Defined.

Lemma predict_rejects_invalid_witness :
  predict ascii_int constant_model (Ok (PDict scenario3)) "2024-05-01T10:00:00" =
    ({| body := PDict {[ "success" := PBool false;
                         "errors" := PList [PStr "trestbps must be no more than 200"] ]};
        status := 400 |},
     [LogInfo (PDict scenario3)]) /\
  List.filter is_model_call
    (snd (predict ascii_int constant_model (Ok (PDict scenario3)) "2024-05-01T10:00:00"))
    = [].
Proof.
  apply (predict_rejects_invalid ascii_int constant_model (PDict scenario3)
           "2024-05-01T10:00:00" ["trestbps must be no more than 200"]).
  - vm_compute. reflexivity.
  - discriminate.
Defined.

Lemma short_circuit_in_returned_list_witness :
  List.filter (is_about "age")
    ["Missing required field: age"; "sex must be of type int"]
    = ["Missing required field: age"] /\
  List.filter (is_about "sex")
    ["Missing required field: age"; "sex must be of type int"]
    = ["sex must be of type int"].
Proof.
  assert (Hrun : validate_data ascii_int (PDict record_untyped) =
                 Ok ["Missing required field: age"; "sex must be of type int"])
    by (vm_compute; reflexivity).
  split.
  - apply (proj1 (short_circuit_in_returned_list ascii_int record_untyped "age"
                    (ranged 18 100) _ ltac:(simpl; tauto) Hrun)).
    vm_compute; reflexivity.
  - apply (proj2 (short_circuit_in_returned_list ascii_int record_untyped "sex"
                    (one_of [0; 1]) _ ltac:(simpl; tauto) Hrun) (PStr "male")).
    + vm_compute; reflexivity.
    + left. vm_compute; reflexivity.
Defined.


Lemma errors_accumulate_in_schema_order_witness :
  exists rest,
    ["Missing required field: age"; "sex must be one of [0, 1]"] =
    "Missing required field: age" :: "sex must be one of [0, 1]" :: rest.
Proof.
  apply (proj2 (errors_accumulate_in_schema_order ascii_int) scenario2);
    vm_compute; reflexivity.
Defined.

Lemma predict_success_labels_by_position_witness :
  exists data row prediction proba probs label negative positive,
    Ok (PDict scenario1) = Ok data /\
    validate_data ascii_int data = Ok [] /\
    assemble ascii_int data = Ok row /\
    model_predict constant_model [row] = Ok prediction /\
    model_predict_proba constant_model [row] = Ok proba /\
    prediction !! 0%nat = Some label /\
    proba !! 0%nat = Some probs /\
    probs !! 0%nat = Some negative /\
    probs !! 1%nat = Some positive /\
    body (predict ascii_int constant_model (Ok (PDict scenario1)) "2024-05-01T10:00:00").1 =
      PDict {[ "success" := PBool true;
               "prediction" := PInt label;
               "probability" := PDict {[ "negative" := PFloat negative;
                                         "positive" := PFloat positive ]};
               "timestamp" := PStr "2024-05-01T10:00:00" ]}.
Proof.
  apply (predict_success_labels_by_position ascii_int constant_model
           (Ok (PDict scenario1)) "2024-05-01T10:00:00" _
           (predict ascii_int constant_model (Ok (PDict scenario1)) "2024-05-01T10:00:00").2);
    vm_compute; reflexivity.
Defined.

Lemma oldpeak_fraction_truncated_witness :
  py_int ascii_int (PFloat two_and_a_half) = Ok 2 /\
  validate_data ascii_int (PDict record_fractional) = Ok [] /\
  assemble ascii_int (PDict record_fractional)
    = Ok [55; 1; 2; 130; 250; 0; 1; 150; 0; 2; 1; 0; 2] /\
  [55; 1; 2; 130; 250; 0; 1; 150; 0; 2; 1; 0; 2] !! 9%nat = Some 2.
Proof.
  destruct (oldpeak_fraction_truncated ascii_int record_fractional two_and_a_half)
    as [Hint Hrest]; [vm_compute; reflexivity | reflexivity |].
  split; [exact Hint|].
  split; [vm_compute; reflexivity|].
  split; [vm_compute; reflexivity|].
  apply (proj2 (Hrest ltac:(vm_compute; split; discriminate))).
  vm_compute. reflexivity.
Defined.

Lemma record_read_through_int_witness :
  validate_data ascii_int (PDict record_coerced) = validate_data ascii_int (PDict scenario1) /\
  assemble ascii_int (PDict record_coerced) = assemble ascii_int (PDict scenario1) /\
  forall model now,
    (predict ascii_int model (Ok (PDict record_coerced)) now).1 =
    (predict ascii_int model (Ok (PDict scenario1)) now).1.
Proof.
  apply (record_read_through_int ascii_int record_coerced scenario1).
  intros field H. unfold schema_fields, VALIDATION_RULES in H.
  cbn [fmap list_fmap fst In] in H.
  repeat (destruct H as [<-|H]; [vm_compute; reflexivity|]).
  destruct H.
Defined.

Lemma validated_record_assembles_witness :
  exists row,
    assemble ascii_int (PDict scenario1) = Ok row /\
    length row = 13%nat /\
    Forall2 (fun item n => within item.2 n = true) VALIDATION_RULES row.
Proof.
  apply (validated_record_assembles ascii_int (PDict scenario1)).
  vm_compute. reflexivity.
Defined.


Lemma at_most_one_error_per_field_witness :
  (length ["Missing required field: age"; "sex must be one of [0, 1]"] <= 13)%nat /\
  forall field rules, In (field, rules) VALIDATION_RULES ->
    (length (List.filter (is_about field)
               ["Missing required field: age"; "sex must be one of [0, 1]"]) <= 1)%nat.
Proof.
  apply (at_most_one_error_per_field ascii_int (PDict scenario2)).
  vm_compute. reflexivity.
Defined.

Lemma errors_grouped_by_field_witness :
  ["Missing required field: age"; "sex must be one of [0, 1]"] =
  concat (map (fun field =>
                 List.filter (is_about field)
                   ["Missing required field: age"; "sex must be one of [0, 1]"])
              schema_fields).
Proof.
  apply (errors_grouped_by_field ascii_int (PDict scenario2)).
  vm_compute. reflexivity.
Defined.

Lemma status_decided_by_validation_witness :
  well_shaped constant_model /\
  status (predict ascii_int constant_model (Ok (PDict scenario1)) "2024-05-01T10:00:00").1 =
    match validate_data ascii_int (PDict scenario1) with
    | Ok [] => 200
    | Ok (_ :: _) => 400
    | Raise _ => 500
    end.
Proof.
  assert (H : well_shaped constant_model).
  { intros values. split.
    - exists 0, []. reflexivity.
    - exists three_quarters, quarter, [], []. reflexivity. }
  split; [exact H|].
  apply (status_decided_by_validation ascii_int constant_model (PDict scenario1)
           "2024-05-01T10:00:00" H).
Defined.

Lemma model_failure_gives_500_witness :
  (predict ascii_int failing_model (Ok (PDict scenario1)) "2024-05-01T10:00:00").1 =
    {| body := PDict {[ "success" := PBool false;
                        "error" := PStr "Internal server error" ]};
       status := 500 |}.
Proof.
  apply (model_failure_gives_500 ascii_int failing_model (PDict scenario1)
           "2024-05-01T10:00:00" [55; 1; 2; 130; 250; 0; 1; 150; 0; 1; 1; 0; 2]).
  - vm_compute; reflexivity.
  - vm_compute; reflexivity.
  - left. exists (ModelError "shape mismatch"). reflexivity.
Defined.

Lemma non_dict_bodies_witness :
  validate_data ascii_int (PList [PInt 1; PStr "age"]) = Raise TypeError /\
  forall model now,
    status (predict ascii_int model (Ok (PList [PInt 1; PStr "age"])) now).1 =
      match validate_data ascii_int (PList [PInt 1; PStr "age"]) with
      | Ok _ => 400
      | Raise _ => 500
      end /\
    model_calls (predict ascii_int model (Ok (PList [PInt 1; PStr "age"])) now).2 = [].
Proof.
  apply (non_dict_bodies ascii_int (PList [PInt 1; PStr "age"])).
  intros d. discriminate.
Defined.

Lemma errors_name_invalid_fields_witness :
  List.filter (is_about "sex")
    ["Missing required field: age"; "sex must be one of [0, 1]"] = [] <->
  field_valid ascii_int scenario2 ("sex", one_of [0; 1]) = true.
Proof.
  apply (errors_name_invalid_fields ascii_int scenario2 "sex" (one_of [0; 1])).
  - simpl; tauto.
  - vm_compute; reflexivity.
Defined.
